(** * Offline form queue of the Rock Living Water PWA

    Shallow embedding of the offline queue / sync subsystem:
    - [src/service-worker.js]: [IndexedDBHelper] (the IndexedDB [formQueue]
      object store), the [message] and [sync] listeners and [syncForms];
    - [src/scripts.js]: [OfflineManager.queueForm],
      [OfflineManager.syncPendingForms], [DataManager.fetchData],
      [DataManager.handleOfflineData], [DataManager.submitForm] and the
      [online] / [offline] listeners.

    Conventions of the embedding.
    - Each function is embedded as it is written, on its own; how the
      browser loads the scripts is outside the model.
    - Asynchronous functions are run to completion, one at a time; the
      interleaving of two passes is outside the model.
    - The network is an oracle [net : nat -> Request -> Outcome]; its first
      argument is the number of calls already issued in the current run.
    - Clock readings ([new Date().toISOString()]) are passed as arguments.
    - JavaScript numbers are restricted to integers ([Z]); strings are
      sequences of 8-bit code units.
    - Storage back ends (IndexedDB, localforage) do not fail.
    - Console / error-console logging is not part of the trace. *)

From Stdlib Require Import ZArith String Ascii List Lia DecimalString Sorted.
From stdpp Require Import gmap strings list fin_maps.

Set Warnings "-register-all".

Local Open Scope string_scope.
Local Open Scope Z_scope.
Local Open Scope list_scope.

(* ===================================================================== *)
(** ** JavaScript values, truthiness and [JSON.stringify] *)
(* ===================================================================== *)

Module JS.

(** Structured data as it travels through [postMessage], IndexedDB,
    localforage and JSON.  Objects keep their properties in insertion
    order, which is the order [JSON.stringify] prints them in. *)
Inductive value :=
| VUndef
| VNull
| VBool (b : bool)
| VNum (n : Z)
| VStr (s : string)
| VArr (xs : list value)
| VObj (props : list (string * value)).

(** ToBoolean. *)
Definition truthy (v : value) : bool :=
  match v with
  | VUndef | VNull => false
  | VBool b => b
  | VNum n => negb (n =? 0)
  | VStr s => match s with EmptyString => false | _ => true end
  | VArr _ | VObj _ => true
  end.

(** [a || b] on values. *)
Definition or_value (a b : value) : value := if truthy a then a else b.

(** [o || d] where [o] is a string-valued property that may be absent. *)
Definition or_string (o : option string) (d : string) : string :=
  match o with
  | Some (String c s) => String c s
  | _ => d
  end.

(** [o || d] where [o] is a number-valued property that may be absent. *)
Definition or_number (o : option Z) (d : Z) : Z :=
  match o with
  | Some n => if n =? 0 then d else n
  | None => d
  end.

(** [o.k]: [None] is the [TypeError] of reading a property of [null] or
    [undefined]; a missing property reads as [undefined]. *)
Fixpoint assoc (k : string) (props : list (string * value)) : value :=
  match props with
  | [] => VUndef
  | (k', v) :: rest => if String.eqb k k' then v else assoc k rest
  end.

Definition get_prop (v : value) (k : string) : option value :=
  match v with
  | VUndef | VNull => None
  | VObj props => Some (assoc k props)
  | _ => Some VUndef
  end.

(** [s.includes(sub)]. *)
Fixpoint includes (s sub : string) : bool :=
  if String.prefix sub s then true
  else match s with
       | EmptyString => false
       | String _ rest => includes rest sub
       end.

(** *** JSON.stringify *)

Definition dquote : ascii := "034"%char.
Definition backslash : ascii := "092"%char.

Definition hex_digit (n : nat) : ascii :=
  match String.get n "0123456789abcdef" with
  | Some c => c
  | None => "0"%char
  end.

(** One code unit inside a JSON string literal (QuoteJSONString). *)
Definition escape_char (c : ascii) : string :=
  let n := nat_of_ascii c in
  if (n =? 8)%nat then String backslash "b"
  else if (n =? 9)%nat then String backslash "t"
  else if (n =? 10)%nat then String backslash "n"
  else if (n =? 12)%nat then String backslash "f"
  else if (n =? 13)%nat then String backslash "r"
  else if (n =? 34)%nat then String backslash (String dquote EmptyString)
  else if (n =? 92)%nat then String backslash (String backslash EmptyString)
  else if (n <? 32)%nat then
    String backslash
      ("u00" +:+ String (hex_digit (n / 16)) (String (hex_digit (n mod 16)) EmptyString))
  else String c EmptyString.

Fixpoint escape (s : string) : string :=
  match s with
  | EmptyString => EmptyString
  | String c rest => escape_char c +:+ escape rest
  end.

Definition quote (s : string) : string :=
  String dquote (escape s +:+ String dquote EmptyString).

Fixpoint join (sep : string) (parts : list string) : string :=
  match parts with
  | [] => EmptyString
  | [p] => p
  | p :: rest => p +:+ sep +:+ join sep rest
  end.

Definition number_to_string (n : Z) : string :=
  NilZero.string_of_int (Z.to_int n).

(** [JSON.stringify(v)]; [None] is the [undefined] it returns for
    [undefined].  Inside an array [undefined] prints as [null]; an object
    property whose value is [undefined] is left out. *)
Fixpoint stringify (v : value) : option string :=
  match v with
  | VUndef => None
  | VNull => Some "null"
  | VBool true => Some "true"
  | VBool false => Some "false"
  | VNum n => Some (number_to_string n)
  | VStr s => Some (quote s)
  | VArr xs =>
      Some ("[" +:+
            join "," (List.map (fun x => default "null" (stringify x)) xs)
            +:+ "]")
  | VObj props =>
      Some ("{" +:+
            join "," (omap (fun p => match p with
                                      | (k, x) =>
                                          match stringify x with
                                          | Some s => Some (quote k +:+ ":" +:+ s)
                                          | None => None
                                          end
                                      end) props)
            +:+ "}")
  end.

End JS.

(* ===================================================================== *)
(** ** What crosses a boundary: HTTP requests and [postMessage] payloads *)
(* ===================================================================== *)

Module Wire.
Import JS.

(** The arguments of one [fetch(url, init)] call. *)
Record Request := mkRequest {
  rq_url : string;
  rq_method : string;
  rq_headers : gmap string string;
  rq_body : option string
}.

(** What the call does: it rejects (network error), or resolves with a
    response whose [ok] flag is given and whose [json()] either parses to
    a value or rejects ([None]). *)
Inductive Outcome :=
| NetworkError
| Response (ok : bool) (json : option value).

(** The [formData] object handed to [OfflineManager.queueForm] and carried
    by the [queue-form] message.  Every property a reader of the object
    looks at is a field; [None] / [VUndef] is an absent property. *)
Record FormData := mkFormData {
  fd_url : string;
  fd_method : option string;
  fd_headers : option (gmap string string);
  fd_body : value;
  fd_data : value;
  fd_formId : string;
  fd_timestamp : option string;
  fd_attempts : option Z;
  fd_csrfToken : option string
}.

(** Page to service worker. *)
Inductive Message :=
| QueueForm (formData : FormData)
| OtherMessage (type : string).

(** Service worker to the message port of the sender. *)
Inductive Reply :=
| ReplySuccess
| ReplyFailure (error : string).

(** Service worker to its window clients. *)
Inductive ClientMessage :=
| FormsSynced (count failed : nat).

End Wire.

(* ===================================================================== *)
(** ** The IndexedDB object store [formQueue]
       ([keyPath: 'id', autoIncrement: true]) *)
(* ===================================================================== *)

Module IDB.
Import JS.

(** The object literal [submission] of [addToQueue]: a record that has no
    [id] yet. *)
Record Draft := mkDraft {
  d_url : string;
  d_method : string;
  d_headers : gmap string string;
  d_body : value;
  d_formId : string;
  d_timestamp : string;
  d_attempts : Z;
  d_csrfToken : string
}.

(** A stored record: the draft with the generated key at its key path. *)
Record Submission := mkSubmission {
  s_id : Z;
  s_url : string;
  s_method : string;
  s_headers : gmap string string;
  s_body : value;
  s_formId : string;
  s_timestamp : string;
  s_attempts : Z;
  s_csrfToken : string
}.

Definition inject_key (k : Z) (d : Draft) : Submission :=
  {| s_id := k; s_url := d_url d; s_method := d_method d;
     s_headers := d_headers d; s_body := d_body d; s_formId := d_formId d;
     s_timestamp := d_timestamp d; s_attempts := d_attempts d;
     s_csrfToken := d_csrfToken d |}.

(** Records in ascending key order, and the key generator's current
    number. *)
Record ObjectStore := mkStore {
  records : list Submission;
  keygen : Z
}.

(** [db.createObjectStore(STORE_NAME, ...)] in [onupgradeneeded]. *)
Definition createObjectStore : ObjectStore :=
  {| records := []; keygen := 1 |}.

(** Store a record under its key, replacing the record that has the key
    or entering the new one at its place in key order. *)
Fixpoint put_record (s : Submission) (rs : list Submission) : list Submission :=
  match rs with
  | [] => [s]
  | r :: rest =>
      if s_id r =? s_id s then s :: rest
      else if s_id s <? s_id r then s :: r :: rest
      else r :: put_record s rest
  end.

(** [store.add(value)] for a value without key: the generator supplies the
    key and moves on. *)
Definition add (d : Draft) (st : ObjectStore) : ObjectStore :=
  let k := keygen st in
  {| records := put_record (inject_key k d) (records st); keygen := k + 1 |}.

(** [store.getAll()]. *)
Definition getAll (st : ObjectStore) : list Submission := records st.

(** [store.delete(key)]; deleting a key that is not there does nothing. *)
Definition delete (k : Z) (st : ObjectStore) : ObjectStore :=
  {| records := List.filter (fun r => negb (s_id r =? k)) (records st);
     keygen := keygen st |}.

(** [store.put(value)] for a value that carries its key; a key at or above
    the generator's number moves the generator past it. *)
Definition put (s : Submission) (st : ObjectStore) : ObjectStore :=
  {| records := put_record s (records st);
     keygen := Z.max (keygen st) (s_id s + 1) |}.

End IDB.

(* ===================================================================== *)
(** ** [src/service-worker.js] *)
(* ===================================================================== *)

Module ServiceWorker.
Import JS Wire IDB.

Record SW := mkSW {
  idb : ObjectStore;        (* database RockLivingWaterDB, store formQueue *)
  clients : list string     (* self.clients.matchAll() *)
}.

(** Everything a run of a listener does to the outside. *)
Record Effects := mkEffects {
  requests : list Request;
  broadcasts : list (string * ClientMessage);
  replies : list Reply
}.

Definition no_effects : Effects :=
  {| requests := []; broadcasts := []; replies := [] |}.

(** *** IndexedDBHelper *)

Definition addToQueue (now : string) (formData : FormData)
    (st : ObjectStore) : ObjectStore :=
  let submission :=
    {| d_url := fd_url formData;
       d_method := or_string (fd_method formData) "POST";
       d_headers := match fd_headers formData with
                    | Some h => h
                    | None => {[ "Content-Type" := "application/json" ]}
                    end;
       d_body := or_value (fd_body formData) (VObj []);
       d_formId := fd_formId formData;
       d_timestamp := or_string (fd_timestamp formData) now;
       d_attempts := or_number (fd_attempts formData) 0;
       d_csrfToken := or_string (fd_csrfToken formData) EmptyString |} in
  add submission st.

Definition getQueue (st : ObjectStore) : list Submission := getAll st.

Definition removeFromQueue (submissions : list Submission)
    (st : ObjectStore) : ObjectStore :=
  match submissions with
  | [] => st
  | _ => fold_left (fun acc submission => delete (s_id submission) acc)
           submissions st
  end.

Definition updateQueue (submissions : list Submission)
    (st : ObjectStore) : ObjectStore :=
  match submissions with
  | [] => st
  | _ => fold_left (fun acc submission => put submission acc) submissions st
  end.

(** *** The [message] listener *)

Definition on_message (now : string) (data : Message) (sw : SW) : SW * Effects :=
  match data with
  | QueueForm formData =>
      let formData' :=
        {| fd_url := fd_url formData; fd_method := fd_method formData;
           fd_headers := fd_headers formData; fd_body := fd_body formData;
           fd_data := fd_data formData; fd_formId := fd_formId formData;
           fd_timestamp := fd_timestamp formData;
           fd_attempts := fd_attempts formData;
           fd_csrfToken :=
             Some (or_string (fd_csrfToken formData) EmptyString) |} in
      ({| idb := addToQueue now formData' (idb sw); clients := clients sw |},
       {| requests := []; broadcasts := []; replies := [ReplySuccess] |})
  | OtherMessage _ => (sw, no_effects)
  end.

(** *** [syncForms] *)

(** The [fetch] call of the loop body. *)
Definition replay_request (formData : Submission) : Request :=
  {| rq_url := s_url formData;
     rq_method := s_method formData;
     rq_headers :=
       s_headers formData ∪
       <[ "X-CSRF-Token" := or_string (Some (s_csrfToken formData)) EmptyString ]>
         {[ "Content-Type" := "application/json" ]};
     rq_body := stringify (s_body formData) |}.

(** [formData.attempts = (formData.attempts || 0) + 1]. *)
Definition bump (formData : Submission) : Submission :=
  {| s_id := s_id formData; s_url := s_url formData;
     s_method := s_method formData; s_headers := s_headers formData;
     s_body := s_body formData; s_formId := s_formId formData;
     s_timestamp := s_timestamp formData;
     s_attempts := or_number (Some (s_attempts formData)) 0 + 1;
     s_csrfToken := s_csrfToken formData |}.

Record Loop := mkLoop {
  successfulSubmissions : list Submission;
  failedSubmissions : list Submission;
  issued : list Request
}.

Definition loop_body (net : nat -> Request -> Outcome)
    (acc : Loop) (formData : Submission) : Loop :=
  if 3 <=? s_attempts formData then
    {| successfulSubmissions := successfulSubmissions acc;
       failedSubmissions := failedSubmissions acc ++ [formData];
       issued := issued acc |}
  else
    let rq := replay_request formData in
    match net (length (issued acc)) rq with
    | Response true _ =>
        {| successfulSubmissions := successfulSubmissions acc ++ [formData];
           failedSubmissions := failedSubmissions acc;
           issued := issued acc ++ [rq] |}
    | Response false _ | NetworkError =>
        {| successfulSubmissions := successfulSubmissions acc;
           failedSubmissions := failedSubmissions acc ++ [bump formData];
           issued := issued acc ++ [rq] |}
    end.

Definition syncForms (net : nat -> Request -> Outcome) (sw : SW) : SW * Effects :=
  let queue := getQueue (idb sw) in
  match queue with
  | [] => (sw, no_effects)
  | _ =>
      let l := fold_left (loop_body net) queue (mkLoop [] [] []) in
      let st1 := removeFromQueue (successfulSubmissions l) (idb sw) in
      let st2 := updateQueue (failedSubmissions l) st1 in
      ({| idb := st2; clients := clients sw |},
       {| requests := issued l;
          broadcasts :=
            List.map (fun client =>
                        (client,
                         FormsSynced (length (successfulSubmissions l))
                                     (length (failedSubmissions l))))
                     (clients sw);
          replies := [] |})
  end.

(** *** The [sync] listener *)

Definition on_sync (net : nat -> Request -> Outcome) (tag : string)
    (sw : SW) : SW * Effects :=
  if String.eqb tag "sync-form-submissions" then syncForms net sw
  else (sw, no_effects).

End ServiceWorker.

(* ===================================================================== *)
(** ** [src/scripts.js] *)
(* ===================================================================== *)

Module Page.
Import JS Wire.

(** An entry of the localforage list [formQueue]: the object literal
    [{...formData, timestamp, attempts: 0, csrfToken}] of [queueForm]. *)
Record QueuedForm := mkQueuedForm {
  q_url : string;
  q_method : option string;
  q_headers : option (gmap string string);
  q_body : value;
  q_data : value;
  q_formId : string;
  q_timestamp : string;
  q_attempts : Z;
  q_csrfToken : string
}.

(** The page: [Store.state], the localforage instance, the CSRF meta tag
    and [navigator.serviceWorker.controller]. *)
Record State := mkState {
  offline : bool;                           (* Store.state.uiState.offline *)
  token : string;                           (* Store.state.credentials.token *)
  cachedData : gmap string value;           (* Store.state.cachedData *)
  formQueue : option (list QueuedForm);     (* localforage item formQueue *)
  items : gmap string value;                (* the other localforage items *)
  csrf_meta : option string;                (* meta[name=csrf-token] content *)
  controller : bool                         (* a service worker controls the page *)
}.

(** What the page does to the outside, in order. *)
Inductive Event :=
| Toast (message kind : string)
| Fetch (rq : Request)
| PostMessage (data : Message)
| SuccessCallback.

Definition requests_of (trace : list Event) : list Request :=
  omap (fun e => match e with Fetch rq => Some rq | _ => None end) trace.

Definition messages_of (trace : list Event) : list Message :=
  omap (fun e => match e with PostMessage m => Some m | _ => None end) trace.

(** How an asynchronous call ends. *)
Inductive Completion :=
| Returned (v : value)
| Thrown.

(** *** Store *)

Definition setOfflineStatus (status : bool) (p : State) : State :=
  {| offline := status; token := token p; cachedData := cachedData p;
     formQueue := formQueue p; items := items p; csrf_meta := csrf_meta p;
     controller := controller p |}.

(** [localforage.setItem(key, value)]; [undefined] is stored as [null]. *)
Definition setItem (key : string) (v : value) (p : State) : State :=
  {| offline := offline p; token := token p; cachedData := cachedData p;
     formQueue := formQueue p;
     items := <[ key := match v with VUndef => VNull | _ => v end ]> (items p);
     csrf_meta := csrf_meta p; controller := controller p |}.

(** [localforage.getItem(key)]; a missing item reads as [null]. *)
Definition getItem (key : string) (p : State) : value :=
  default VNull (items p !! key).

Definition setFormQueue (queue : list QueuedForm) (p : State) : State :=
  {| offline := offline p; token := token p; cachedData := cachedData p;
     formQueue := Some queue; items := items p; csrf_meta := csrf_meta p;
     controller := controller p |}.

(** [Store.setCachedData(type, data)]; [Store.setMetrics(metrics)] is the
    same assignment and save under the name [metrics]. *)
Definition setCachedData (type : string) (data : value) (p : State) : State :=
  setItem type data
    {| offline := offline p; token := token p;
       cachedData := <[ type := data ]> (cachedData p);
       formQueue := formQueue p; items := items p; csrf_meta := csrf_meta p;
       controller := controller p |}.

Definition cached (type : string) (p : State) : value :=
  default VUndef (cachedData p !! type).

(** [Store.state.cachedData] as the script initialises it. *)
Definition initial_cachedData : gmap string value :=
  <[ "sales" := VArr [] ]>
    (<[ "customers" := VArr [] ]>
       (<[ "vendors" := VArr [] ]>
          (<[ "expenses" := VArr [] ]> {[ "metrics" := VNull ]}))).

(** *** DataManager *)

Definition getCSRFToken (p : State) : string :=
  match csrf_meta p with
  | Some content => content
  | None => EmptyString
  end.

(** [OfflineManager.getCachedMetrics]. *)
Definition getCachedMetrics (p : State) : value :=
  let metrics := getItem "metrics" p in
  if truthy metrics then metrics else VNull.

Definition offline_hit (data : value) : value :=
  VObj [("success", VBool true); ("data", data)].

Definition offline_miss (message : string) : value :=
  VObj [("success", VBool false); ("message", VStr message)].

Definition handleOfflineData (p : State) (url : string) : value :=
  let fallback := offline_miss "Cannot fetch this data while offline" in
  if includes url "/api/generateReports" then
    let cachedMetrics := getCachedMetrics p in
    if truthy cachedMetrics then offline_hit cachedMetrics
    else offline_miss "No cached metrics available offline"
  else if includes url "/api/getSalesRecords" then
    let cachedSales := cached "sales" p in
    if truthy cachedSales then offline_hit cachedSales else fallback
  else if includes url "/api/getCustomers" then
    let cachedCustomers := cached "customers" p in
    if truthy cachedCustomers then offline_hit cachedCustomers else fallback
  else if includes url "/api/getVendors" then
    let cachedVendors := cached "vendors" p in
    if truthy cachedVendors then offline_hit cachedVendors else fallback
  else if includes url "/api/getExpensesRecords" then
    let cachedExpenses := cached "expenses" p in
    if truthy cachedExpenses then offline_hit cachedExpenses else fallback
  else fallback.

(** The [options] argument of [fetchData]. *)
Record Options := mkOptions {
  opt_method : option string;
  opt_headers : option (gmap string string);
  opt_body : value
}.

(** The [fetch] call of [fetchData]. *)
Definition fetch_request (p : State) (url : string) (options : Options) : Request :=
  {| rq_url := url;
     rq_method := or_string (opt_method options) "GET";
     rq_headers :=
       default ∅ (opt_headers options) ∪
       ((match token p with
         | EmptyString => ∅
         | t => {[ "Authorization" := "Bearer " +:+ t ]}
         end) ∪
        <[ "X-CSRF-Token" := getCSRFToken p ]>
          {[ "Content-Type" := "application/json" ]});
     rq_body := if truthy (opt_body options) then stringify (opt_body options)
                else None |}.

(** The [if / else if] chain after [response.json()]: the first endpoint
    the url names decides; [data.success] is read only once an endpoint
    matched, and reading it from [null] throws ([None]). *)
Definition cache_table : list (string * string) :=
  [ ("/api/getSalesRecords", "sales");
    ("/api/getCustomers", "customers");
    ("/api/getVendors", "vendors");
    ("/api/getExpensesRecords", "expenses");
    ("/api/generateReports", "metrics") ].

Fixpoint cache_response (table : list (string * string)) (url : string)
    (data : value) (p : State) : option State :=
  match table with
  | [] => Some p
  | (endpoint, type) :: rest =>
      if includes url endpoint then
        match get_prop data "success" with
        | None => None
        | Some success =>
            if truthy success then
              match get_prop data "data" with
              | Some d => Some (setCachedData type d p)
              | None => None
              end
            else cache_response rest url data p
        end
      else cache_response rest url data p
  end.

(** [calls] is the number of network calls issued before this one. *)
Definition fetchData (net : nat -> Request -> Outcome) (calls : nat)
    (p : State) (url : string) (options : Options)
    : State * list Event * Completion :=
  if offline p then (p, [], Returned (handleOfflineData p url))
  else
    let rq := fetch_request p url options in
    match net calls rq with
    | NetworkError => (p, [Fetch rq], Thrown)
    | Response false _ => (p, [Fetch rq], Thrown)
    | Response true None => (p, [Fetch rq], Thrown)
    | Response true (Some data) =>
        match cache_response cache_table url data p with
        | Some p' => (p', [Fetch rq], Returned data)
        | None => (p, [Fetch rq], Thrown)
        end
    end.

(** *** OfflineManager *)

Definition queueForm (now : string) (formData : FormData) (p : State)
    : State * list Event :=
  let queue := default [] (formQueue p) in
  let entry :=
    {| q_url := fd_url formData; q_method := fd_method formData;
       q_headers := fd_headers formData; q_body := fd_body formData;
       q_data := fd_data formData; q_formId := fd_formId formData;
       q_timestamp := now; q_attempts := 0;
       q_csrfToken := getCSRFToken p |} in
  let p' := setFormQueue (queue ++ [entry]) p in
  if controller p then
    (p', [PostMessage
            (QueueForm
               {| fd_url := fd_url formData; fd_method := fd_method formData;
                  fd_headers := fd_headers formData;
                  fd_body := fd_body formData; fd_data := fd_data formData;
                  fd_formId := fd_formId formData;
                  fd_timestamp := fd_timestamp formData;
                  fd_attempts := fd_attempts formData;
                  fd_csrfToken := Some (getCSRFToken p) |})])
  else (p', []).

(** [form.attempts++]. *)
Definition increment (form : QueuedForm) : QueuedForm :=
  {| q_url := q_url form; q_method := q_method form;
     q_headers := q_headers form; q_body := q_body form;
     q_data := q_data form; q_formId := q_formId form;
     q_timestamp := q_timestamp form; q_attempts := q_attempts form + 1;
     q_csrfToken := q_csrfToken form |}.

(** The state of the loop of [syncPendingForms].  [objs] is the array
    [getItem] returned: the loop walks it from first to last and
    [form.attempts++] writes into it.  [queue] is the current value of the
    variable [queue]: the array [filter] built last, as the positions in
    [objs] of the objects it holds, since [q !== form] compares object
    identities and the filtered arrays share the objects of [objs]. *)
Record Pass := mkPass {
  objs : list QueuedForm;
  queue : list nat;
  page : State;
  trace : list Event
}.

Definition pass_body (net : nat -> Request -> Outcome)
    (st : Pass) (i : nat) : Pass :=
  match objs st !! i with
  | None => st
  | Some form =>
      if 3 <=? q_attempts form then
        {| objs := objs st;
           queue := List.filter (fun q => negb (q =? i)%nat) (queue st);
           page := page st;
           trace := trace st ++
                    [Toast ("Failed to sync form " +:+ q_formId form +:+
                            " after max attempts") "danger"] |}
      else
        match fetchData net (length (requests_of (trace st))) (page st)
                (q_url form)
                {| opt_method := q_method form; opt_headers := None;
                   opt_body := q_data form |} with
        | (p', evs, Returned _) =>
            {| objs := objs st;
               queue := List.filter (fun q => negb (q =? i)%nat) (queue st);
               page := p';
               trace := trace st ++ evs ++
                        [Toast ("Synced form " +:+ q_formId form) "success"] |}
        | (p', evs, Thrown) =>
            {| objs := <[ i := increment form ]> (objs st);
               queue := queue st;
               page := p';
               trace := trace st ++ evs |}
        end
  end.

(** The [for ... of] loop over the array [queue0] that [getItem]
    returned. *)
Definition run_pass (net : nat -> Request -> Outcome) (p : State)
    (queue0 : list QueuedForm) : Pass :=
  let positions := seq 0 (length queue0) in
  fold_left (pass_body net) positions
    {| objs := queue0; queue := positions; page := p; trace := [] |}.

Definition syncPendingForms (net : nat -> Request -> Outcome) (p : State)
    : State * list Event :=
  let queue0 := default [] (formQueue p) in
  match queue0 with
  | [] => (p, [])
  | _ =>
      let st := run_pass net p queue0 in
      (setFormQueue (omap (fun q => objs st !! q) (queue st)) (page st),
       trace st)
  end.

(** *** [DataManager.submitForm] *)

Definition submitForm (now : string) (net : nat -> Request -> Outcome)
    (url : string) (method : option string) (data : value) (formId : string)
    (successCallback : bool) (p : State) : State * list Event * Completion :=
  if offline p then
    let '(p', evs) :=
      queueForm now
        {| fd_url := url; fd_method := method; fd_headers := None;
           fd_body := VUndef; fd_data := data; fd_formId := formId;
           fd_timestamp := None; fd_attempts := None;
           fd_csrfToken := None |} p in
    (p', evs ++ [Toast "Request queued for sync when online" "info"],
     Returned (VObj [("success", VBool true);
                     ("message", VStr "Request queued")]))
  else
    match fetchData net 0 p url
            {| opt_method := method; opt_headers := None;
               opt_body := data |} with
    | (p', evs, Returned result) =>
        match get_prop result "success" with
        | Some success =>
            (p',
             evs ++ (if truthy success && successCallback
                     then [SuccessCallback] else []),
             Returned result)
        | None =>
            (p', evs ++ [Toast "Error submitting form" "danger"], Thrown)
        end
    | (p', evs, Thrown) =>
        (p', evs ++ [Toast "Error submitting form" "danger"], Thrown)
    end.

(** *** The [online] and [offline] listeners of the window *)

Definition on_online (net : nat -> Request -> Outcome) (p : State)
    : State * list Event :=
  let p1 := setOfflineStatus false p in
  let '(p2, evs) := syncPendingForms net p1 in
  (p2, Toast "Back online. Syncing data..." "success" :: evs).

Definition on_offline (p : State) : State * list Event :=
  (setOfflineStatus true p,
   [Toast "You are now offline. Working in offline mode." "warning"]).

End Page.

(* ===================================================================== *)
(** ** The page and its service worker together *)
(* ===================================================================== *)

Module System.
Import JS Wire IDB.

(** The service worker handles, in order, the messages a page trace
    posted; [now] is its clock while it does. *)
Definition deliver (now : string) (trace : list Page.Event)
    (sw : ServiceWorker.SW) : ServiceWorker.SW :=
  fold_left (fun acc m => fst (ServiceWorker.on_message now m acc))
    (Page.messages_of trace) sw.

End System.

(* ===================================================================== *)
(** ** Vocabulary of the statements *)
(* ===================================================================== *)

Module Vocabulary.
Import JS Wire IDB.

(** The submissions a pass of [syncForms] skips: [formData.attempts >= 3]. *)
Definition terminal (s : Submission) : bool := 3 <=? s_attempts s.

(** Every stored key lies below the key generator's number. *)
Definition keys_below (st : ObjectStore) : Prop :=
  Forall (fun r => s_id r < keygen st) (records st).

(** The record the store holds under key [k], if any. *)
Definition record_at (k : Z) (st : ObjectStore) : option Submission :=
  List.find (fun r => s_id r =? k) (records st).

(** A history of the object store: the requests its transactions made. *)
Inductive Op :=
| OpAdd (d : Draft)
| OpDelete (k : Z)
| OpPut (s : Submission).

Definition run_op (op : Op) (st : ObjectStore) : ObjectStore :=
  match op with
  | OpAdd d => add d st
  | OpDelete k => delete k st
  | OpPut s => put s st
  end.

Definition run (ops : list Op) (st : ObjectStore) : ObjectStore :=
  fold_left (fun acc op => run_op op acc) ops st.

(** The keys the generator handed out along a history, oldest first. *)
Fixpoint assigned (ops : list Op) (st : ObjectStore) : list Z :=
  match ops with
  | [] => []
  | OpAdd d :: rest => keygen st :: assigned rest (add d st)
  | op :: rest => assigned rest (run_op op st)
  end.

(** The submissions a pass of [syncPendingForms] skips. *)
Definition exhausted (form : Page.QueuedForm) : bool :=
  3 <=? Page.q_attempts form.

(** The options [syncPendingForms] hands to [fetchData] for [form]. *)
Definition replay_options (form : Page.QueuedForm) : Page.Options :=
  {| Page.opt_method := Page.q_method form; Page.opt_headers := None;
     Page.opt_body := Page.q_data form |}.

(** The entries of the localforage list, [[]] when the item is absent. *)
Definition pending (p : Page.State) : list Page.QueuedForm :=
  default [] (Page.formQueue p).

(** The loop state of [syncPendingForms] just before it looks at the
    entry at position [i]. *)
Definition pass_before (net : nat -> Request -> Outcome) (p : Page.State)
    (queue0 : list Page.QueuedForm) (i : nat) : Page.Pass :=
  fold_left (Page.pass_body net) (seq 0 i)
    {| Page.objs := queue0; Page.queue := seq 0 (length queue0);
       Page.page := p; Page.trace := [] |}.

(** What a page state contributes to a request, and the flags the
    listeners look at: nothing a [fetchData] call changes. *)
Definition same_env (p p' : Page.State) : Prop :=
  Page.offline p' = Page.offline p /\ Page.token p' = Page.token p /\
  Page.csrf_meta p' = Page.csrf_meta p /\
  Page.controller p' = Page.controller p /\
  Page.formQueue p' = Page.formQueue p.

(** The request [syncPendingForms] issues for [form] from the page [p]
    while it is online. *)
Definition replay_fetch (p : Page.State) (form : Page.QueuedForm) : Request :=
  Page.fetch_request p (Page.q_url form) (replay_options form).

End Vocabulary.

(* ===================================================================== *)
(** ** Concrete runs *)
(* ===================================================================== *)

Module Examples.
Import JS Wire IDB.

(** A network that is unreachable, and a server that answers every call
    with HTTP 200 and the body [{"success": false}]. *)
Definition down : nat -> Request -> Outcome := fun _ _ => NetworkError.

Definition refusing : nat -> Request -> Outcome :=
  fun _ _ => Response true (Some (VObj [("success", VBool false)])).

(** Form data of a caller that supplies a [body] and a token. *)
Definition saleForm : FormData :=
  {| fd_url := "/api/addSale"; fd_method := Some "POST"; fd_headers := None;
     fd_body := VObj [("amount", VNum 5)]; fd_data := VUndef;
     fd_formId := "saleForm"; fd_timestamp := None; fd_attempts := None;
     fd_csrfToken := Some "tok" |}.

(** The same form with headers of its own. *)
Definition plainForm : FormData :=
  {| fd_url := "/api/addSale"; fd_method := Some "POST";
     fd_headers := Some {[ "Content-Type" := "text/plain" ]};
     fd_body := VObj [("amount", VNum 5)]; fd_data := VUndef;
     fd_formId := "saleForm"; fd_timestamp := None; fd_attempts := None;
     fd_csrfToken := Some "tok" |}.

(** The same form carrying an [attempts] property of its own. *)
Definition retriedForm : FormData :=
  {| fd_url := "/api/addSale"; fd_method := Some "POST"; fd_headers := None;
     fd_body := VObj [("amount", VNum 5)]; fd_data := VUndef;
     fd_formId := "saleForm"; fd_timestamp := None; fd_attempts := Some 2;
     fd_csrfToken := Some "tok" |}.


(** A service worker with one window client and a fresh, empty store. *)
Definition idle_sw : ServiceWorker.SW :=
  {| ServiceWorker.idb := createObjectStore;
     ServiceWorker.clients := ["window-1"] |}.

(** ... after it received [saleForm], [plainForm]. *)
Definition queued_sw : ServiceWorker.SW :=
  fst (ServiceWorker.on_message "t0" (QueueForm saleForm) idle_sw).

Definition plain_sw : ServiceWorker.SW :=
  fst (ServiceWorker.on_message "t0" (QueueForm plainForm) idle_sw).

(** ... and after three passes of [syncForms] that found the network
    down: the one record now has [attempts = 3]. *)
Definition exhausted_sw : ServiceWorker.SW :=
  fst (ServiceWorker.syncForms down
         (fst (ServiceWorker.syncForms down
                 (fst (ServiceWorker.syncForms down queued_sw))))).

(** A second form, queued behind the first, and a network on which the
    sales endpoint answers HTTP 200 and every other endpoint HTTP 500. *)
Definition expenseForm : FormData :=
  {| fd_url := "/api/addExpense"; fd_method := Some "POST";
     fd_headers := None; fd_body := VObj [("amount", VNum 7)];
     fd_data := VUndef; fd_formId := "expenseForm"; fd_timestamp := None;
     fd_attempts := None; fd_csrfToken := Some "tok" |}.

Definition two_queued_sw : ServiceWorker.SW :=
  fst (ServiceWorker.on_message "t1" (QueueForm expenseForm) queued_sw).

Definition sales_up : nat -> Request -> Outcome :=
  fun _ rq =>
    if String.eqb (rq_url rq) "/api/addSale" then Response true None
    else Response false None.

(** An offline page under a service worker's control, with nothing
    queued; the same page without a controller; the same page online. *)
Definition offline_page : Page.State :=
  {| Page.offline := true; Page.token := EmptyString;
     Page.cachedData := Page.initial_cachedData;
     Page.formQueue := None; Page.items := ∅; Page.csrf_meta := Some "tok";
     Page.controller := true |}.


(** The page after [DataManager.submitForm] queued a sale while offline,
    and the same page once it is back online. *)
Definition page_with_sale : Page.State :=
  fst (fst (Page.submitForm "t0" down "/api/addSale" (Some "POST")
              (VObj [("amount", VNum 5)]) "saleForm" false offline_page)).

Definition online_page_with_sale : Page.State :=
  Page.setOfflineStatus false page_with_sale.

(** The entry that page holds in its localforage list, and the record
    [queued_sw] holds in its object store. *)
Definition sale_entry : Page.QueuedForm :=
  {| Page.q_url := "/api/addSale"; Page.q_method := Some "POST";
     Page.q_headers := None; Page.q_body := VUndef;
     Page.q_data := VObj [("amount", VNum 5)]; Page.q_formId := "saleForm";
     Page.q_timestamp := "t0"; Page.q_attempts := 0;
     Page.q_csrfToken := "tok" |}.

Definition sale_record : Submission :=
  {| s_id := 1; s_url := "/api/addSale"; s_method := "POST";
     s_headers := {[ "Content-Type" := "application/json" ]};
     s_body := VObj [("amount", VNum 5)]; s_formId := "saleForm";
     s_timestamp := "t0"; s_attempts := 0; s_csrfToken := "tok" |}.

(** The history of the object store of [queued_sw]. *)
Definition sale_history : list Vocabulary.Op :=
  [Vocabulary.OpAdd
     {| d_url := "/api/addSale"; d_method := "POST";
        d_headers := {[ "Content-Type" := "application/json" ]};
        d_body := VObj [("amount", VNum 5)]; d_formId := "saleForm";
        d_timestamp := "t0"; d_attempts := 0; d_csrfToken := "tok" |}].

End Examples.

(* ===================================================================== *)
(** ** The passes as plain list functions *)
(* ===================================================================== *)

Module Reference.
Import JS Wire IDB.

(** The shape of an object store the listeners can reach: [getAll] is in
    strictly ascending key order and every key lies below the key
    generator's number. *)
Definition store_ok (st : ObjectStore) : Prop :=
  StronglySorted Z.lt (List.map s_id (records st)) /\
  Vocabulary.keys_below st.

(** A network on which no call is answered with an [ok] response. *)
Definition never_ok (net : nat -> Request -> Outcome) : Prop :=
  forall calls rq, forall json, net calls rq <> Response true json.

(** What a pass of [syncForms] leaves in the store, read off the queue
    from first to last: a terminal record stays; any other record is
    replayed, with [calls] counting the calls made so far, and goes if the
    answer is [ok] and stays with its [attempts] raised otherwise. *)
Fixpoint sweep (net : nat -> Request -> Outcome) (calls : nat)
    (queue : list Submission) : list Submission :=
  match queue with
  | [] => []
  | s :: rest =>
      if Vocabulary.terminal s then s :: sweep net calls rest
      else
        match net calls (ServiceWorker.replay_request s) with
        | Response true _ => sweep net (S calls) rest
        | _ => ServiceWorker.bump s :: sweep net (S calls) rest
        end
  end.

(** A record after one more pass in which its replay, if any, failed. *)
Definition retried (s : Submission) : Submission :=
  if Vocabulary.terminal s then s else ServiceWorker.bump s.

(** What a pass of [syncPendingForms] does, read off the entries from
    first to last without the shared array: the page and the trace it
    ends with, and the entries it writes back. *)
Fixpoint pass_list (net : nat -> Request -> Outcome) (p : Page.State)
    (tr : list Page.Event) (forms : list Page.QueuedForm)
    : Page.State * list Page.Event * list Page.QueuedForm :=
  match forms with
  | [] => (p, tr, [])
  | form :: rest =>
      if Vocabulary.exhausted form then
        pass_list net p
          (tr ++ [Page.Toast ("Failed to sync form " +:+ Page.q_formId form +:+
                              " after max attempts") "danger"]) rest
      else
        match Page.fetchData net (length (Page.requests_of tr)) p
                (Page.q_url form) (Vocabulary.replay_options form) with
        | (p', evs, Page.Returned _) =>
            pass_list net p'
              (tr ++ evs ++
               [Page.Toast ("Synced form " +:+ Page.q_formId form) "success"])
              rest
        | (p', evs, Page.Thrown) =>
            let '(p'', tr', kept) := pass_list net p' (tr ++ evs) rest in
            (p'', tr', Page.increment form :: kept)
        end
  end.

(** An entry after one more pass in which its replay, if any, threw. *)
Definition reattempted (form : Page.QueuedForm) : option Page.QueuedForm :=
  if Vocabulary.exhausted form then None else Some (Page.increment form).

End Reference.

(* ===================================================================== *)
(** ** The life of a service worker: its events, one after the other *)
(* ===================================================================== *)

Module Lifecycle.
Import JS Wire IDB ServiceWorker.

Inductive Event :=
| Message (now : string) (data : Wire.Message)
| Sync (net : nat -> Request -> Outcome) (tag : string).

Definition dispatch (ev : Event) (sw : SW) : SW * Effects :=
  match ev with
  | Message now data => on_message now data sw
  | Sync net tag => on_sync net tag sw
  end.

Definition run_events (evs : list Event) (sw : SW) : SW :=
  fold_left (fun acc ev => fst (dispatch ev acc)) evs sw.

(** A service worker whose database has just been created. *)
Definition installed (windows : list string) : SW :=
  {| idb := createObjectStore; clients := windows |}.

(** The messages whose form data bring no [attempts] of their own, or
    one between 0 and 3. *)
Definition modest (ev : Event) : Prop :=
  match ev with
  | Message _ (QueueForm formData) =>
      match fd_attempts formData with
      | None => True
      | Some a => 0 <= a <= 3
      end
  | _ => True
  end.

End Lifecycle.

(* ===================================================================== *)
(** ** [src/scripts.js]: what starts the foreground pass *)
(* ===================================================================== *)

Module Triggers.
Import JS Wire Page.

(** The [data] of a message the page receives from its service worker. *)
Inductive WorkerMessage :=
| OfflineStatusChanged (status : bool)
| FromWorker (m : ClientMessage)
| NoData.

(** The [message] listener [ServiceWorkerManager.init] installs. *)
Definition on_worker_message (net : nat -> Request -> Outcome)
    (data : WorkerMessage) (p : State) : State * list Event :=
  match data with
  | OfflineStatusChanged status =>
      let p1 := setOfflineStatus status p in
      let toast :=
        Toast (if status then "You are now offline" else "Back online")
              (if status then "warning" else "success") in
      if negb status then
        let '(p2, evs) := syncPendingForms net p1 in (p2, toast :: evs)
      else (p1, [toast])
  | FromWorker _ | NoData => (p, [])
  end.

(** [ServiceWorkerManager.checkPendingForms]. *)
Definition checkPendingForms (net : nat -> Request -> Outcome) (p : State)
    : State * list Event :=
  if negb (offline p) then syncPendingForms net p else (p, []).

End Triggers.

(* ===================================================================== *)
(** ** [src/service-worker.js]: the caches and the [install], [activate]
       and [fetch] listeners *)
(* ===================================================================== *)

Module Proxy.
Import JS.

Definition CACHE_NAME : string := "rock-living-water-v5".
Definition API_CACHE_NAME : string := "rock-api-cache-v2".
Definition FONT_CACHE_NAME : string := "rock-fonts-v2".

Definition OFFLINE_METRICS_URLS : list string :=
  [ "/api/generateReports"; "/api/getSalesRecords"; "/api/getCustomers";
    "/api/getVendors"; "/api/getExpensesRecords" ].

Definition urlsToCache : list string :=
  [ "/"; "/index.html"; "/styles/main.css"; "/scripts/app.js";
    "/scripts/localforage.min.js"; "/scripts/moment.min.js";
    "/scripts/chart.min.js"; "/scripts/bootstrap.bundle.min.js";
    "/images/logo.png"; "/manifest.json" ].

Definition fontFilesToCache : list string :=
  [ "/fonts/OpenSans-Regular.woff2"; "/fonts/OpenSans-Medium.woff2" ].

(** What the listener looks at in [event.request], and a response. *)
Record HttpRequest := mkHttpRequest {
  h_url : string;
  h_method : string
}.

Record HttpResponse := mkHttpResponse {
  r_status : Z;
  r_headers : gmap string string;
  r_body : string
}.

(** [response.ok]. *)
Definition ok (response : HttpResponse) : bool :=
  (200 <=? r_status response) && (r_status response <=? 299).

(** The network as the service worker sees it: a call rejects ([None])
    or resolves with a response, of any status. *)
Definition Network : Type := HttpRequest -> option HttpResponse.

(** Cache storage: the caches in the order they were created, each with
    its name and its entries, a response per url.  Of the Cache API the
    model keeps: only [GET] requests are stored or matched; a response
    with status 206 is not stored; [caches.match] asks the caches in
    order and takes the first hit; [caches.open] creates a cache that is
    not there.  Urls are compared as they are written, [Vary] is not
    modelled. *)
Definition Cache : Type := list (string * HttpResponse).
Definition CacheStorage : Type := list (string * Cache).

Fixpoint cache_lookup (url : string) (c : Cache) : option HttpResponse :=
  match c with
  | [] => None
  | (u, response) :: rest =>
      if String.eqb u url then Some response else cache_lookup url rest
  end.

Fixpoint cache_store (url : string) (response : HttpResponse) (c : Cache) : Cache :=
  match c with
  | [] => [(url, response)]
  | (u, old) :: rest =>
      if String.eqb u url then (u, response) :: rest
      else (u, old) :: cache_store url response rest
  end.

Definition is_get (request : HttpRequest) : bool :=
  String.eqb (h_method request) "GET".

(** [cache.match(request)] and [caches.match(request)]. *)
Definition cache_match (request : HttpRequest) (c : Cache) : option HttpResponse :=
  if is_get request then cache_lookup (h_url request) c else None.

Fixpoint caches_match (request : HttpRequest) (cs : CacheStorage)
    : option HttpResponse :=
  match cs with
  | [] => None
  | (_, c) :: rest =>
      match cache_match request c with
      | Some response => Some response
      | None => caches_match request rest
      end
  end.

(** [caches.open(name)]. *)
Definition has_cache (name : string) (cs : CacheStorage) : bool :=
  existsb (fun entry => String.eqb (fst entry) name) cs.

Definition caches_open (name : string) (cs : CacheStorage) : CacheStorage :=
  if has_cache name cs then cs else cs ++ [(name, [])].

(** Apply [f] to the cache called [name]. *)
Fixpoint in_cache (name : string) (f : Cache -> Cache) (cs : CacheStorage)
    : CacheStorage :=
  match cs with
  | [] => []
  | (n, c) :: rest =>
      if String.eqb n name then (n, f c) :: rest
      else (n, c) :: in_cache name f rest
  end.

(** [caches.open(name).then(cache => cache.put(request, response))]; a
    [put] the Cache API rejects leaves the cache as it is. *)
Definition storable (request : HttpRequest) (response : HttpResponse) : bool :=
  is_get request && negb (r_status response =? 206).

Definition open_and_put (name : string) (request : HttpRequest)
    (response : HttpResponse) (cs : CacheStorage) : CacheStorage :=
  let cs' := caches_open name cs in
  if storable request response
  then in_cache name (cache_store (h_url request) response) cs'
  else cs'.

(** The responses the listener makes up. *)
Definition unavailable (message : string) : HttpResponse :=
  {| r_status := 503;
     r_headers := {[ "Content-Type" := "application/json" ]};
     r_body := default EmptyString
                 (stringify (VObj [("success", VBool false);
                                   ("message", VStr message)])) |}.

Definition unavailable_resource : HttpResponse :=
  {| r_status := 503; r_headers := ∅;
     r_body := "Resource unavailable offline" |}.

(** What answering one request did. *)
Record Answer := mkAnswer {
  response : HttpResponse;
  caches : CacheStorage;
  fetched : list HttpRequest
}.

(** The [fetch] listener. *)
Definition on_fetch (network : Network) (request : HttpRequest)
    (cs : CacheStorage) : Answer :=
  let requestUrl := h_url request in
  if includes requestUrl "/api/" || includes requestUrl "script.google.com" then
    if existsb (fun url => includes requestUrl url) OFFLINE_METRICS_URLS then
      let from_cache :=
        match caches_match request cs with
        | Some cached => cached
        | None => unavailable "No cached data available offline"
        end in
      match network request with
      | Some resp =>
          if ok resp then
            {| response := resp;
               caches := open_and_put API_CACHE_NAME request resp cs;
               fetched := [request] |}
          else {| response := from_cache; caches := cs; fetched := [request] |}
      | None => {| response := from_cache; caches := cs; fetched := [request] |}
      end
    else
      match network request with
      | Some resp => {| response := resp; caches := cs; fetched := [request] |}
      | None =>
          {| response := unavailable "Offline, please try again later";
             caches := cs; fetched := [request] |}
      end
  else
    match caches_match request cs with
    | Some cached => {| response := cached; caches := cs; fetched := [] |}
    | None =>
        match network request with
        | Some resp => {| response := resp; caches := cs; fetched := [request] |}
        | None =>
            {| response := unavailable_resource; caches := cs;
               fetched := [request] |}
        end
    end.

(** The [activate] listener: every cache whose name is not one of the
    three is deleted. *)
Definition current (name : string) : bool :=
  String.eqb name CACHE_NAME || String.eqb name API_CACHE_NAME ||
  String.eqb name FONT_CACHE_NAME.

Definition on_activate (cs : CacheStorage) : CacheStorage :=
  List.filter (fun entry => current (fst entry)) cs.

(** [cache.addAll(urls)], the urls resolved against [origin]: every url
    is fetched, and unless every answer is [ok] and storable nothing is
    added ([None]: the promise rejects). *)
Definition asset (origin url : string) : HttpRequest :=
  {| h_url := origin +:+ url; h_method := "GET" |}.

Fixpoint addAll (network : Network) (origin : string) (urls : list string)
    (c : Cache) : option Cache :=
  match urls with
  | [] => Some c
  | url :: rest =>
      match network (asset origin url) with
      | Some resp =>
          if ok resp && storable (asset origin url) resp then
            match addAll network origin rest c with
            | Some c' => Some (cache_store (origin +:+ url) resp c')
            | None => None
            end
          else None
      | None => None
      end
  end.

Definition open_and_addAll (network : Network) (origin name : string)
    (urls : list string) (cs : CacheStorage) : CacheStorage :=
  let cs' := caches_open name cs in
  in_cache name
    (fun c => match addAll network origin urls c with
              | Some c' => c'
              | None => c
              end) cs'.

(** The [install] listener: the static assets, then the fonts; a failure
    of either is logged and does not stop the other. *)
Definition on_install (network : Network) (origin : string)
    (cs : CacheStorage) : CacheStorage :=
  open_and_addAll network origin FONT_CACHE_NAME fontFilesToCache
    (open_and_addAll network origin CACHE_NAME urlsToCache cs).

(** No cache but the one called [name] holds an entry for [url]. *)
Definition only_in (name url : string) (cs : CacheStorage) : Prop :=
  forall n c, In (n, c) cs -> n <> name -> cache_lookup url c = None.

End Proxy.

(* ===================================================================== *)
(** ** More concrete runs *)
(* ===================================================================== *)

Module Scenes.
Import JS Wire.

(** A server whose sales listing answers with one record. *)
Definition listing : value :=
  VObj [("success", VBool true);
        ("data", VArr [VObj [("id", VNum 1); ("amount", VNum 5)]])].

Definition serving : nat -> Request -> Outcome :=
  fun _ _ => Response true (Some listing).

Definition listing_url : string := "/api/getSalesRecords?page=1&pageSize=20".

Definition no_options : Page.Options :=
  {| Page.opt_method := None; Page.opt_headers := None;
     Page.opt_body := VUndef |}.

(** The service worker's view: a [GET] for the listing, the answer of a
    server that is up, and two networks, one up and one unreachable. *)
Definition listing_request : Proxy.HttpRequest :=
  {| Proxy.h_url := "https://shop.example/api/getSalesRecords?page=1";
     Proxy.h_method := "GET" |}.

Definition listing_post : Proxy.HttpRequest :=
  {| Proxy.h_url := "https://shop.example/api/getSalesRecords?page=1";
     Proxy.h_method := "POST" |}.

Definition listing_answer : Proxy.HttpResponse :=
  {| Proxy.r_status := 200;
     Proxy.r_headers := {[ "Content-Type" := "application/json" ]};
     Proxy.r_body := "{}" |}.

Definition up : Proxy.Network := fun _ => Some listing_answer.
Definition unreachable : Proxy.Network := fun _ => None.

(** A network on which the style sheet is missing. *)
Definition page_not_found : Proxy.HttpResponse :=
  {| Proxy.r_status := 404; Proxy.r_headers := ∅; Proxy.r_body := EmptyString |}.

Definition stylesheet_missing : Proxy.Network :=
  fun request =>
    if String.eqb (Proxy.h_url request) "https://shop.example/styles/main.css"
    then Some page_not_found else Some listing_answer.

End Scenes.

(* ===================================================================== *)
(** * Facts about the object store *)
(* ===================================================================== *)

Section StoreFacts.
Import JS Wire IDB ServiceWorker Vocabulary.

Lemma put_record_In s rs : In s (put_record s rs).
Proof.
  induction rs as [|r rest IH]; simpl; [now left|].
  destruct (s_id r =? s_id s); [now left|].
  destruct (s_id s <? s_id r); [now left|]. now right.
Qed.

(** A record whose key is above every stored key goes to the end. *)
Lemma put_record_fresh s rs :
  Forall (fun r => s_id r < s_id s) rs -> put_record s rs = rs ++ [s].
Proof.
  induction 1 as [|r rest Hr _ IH]; simpl; [reflexivity|].
  destruct (Z.eqb_spec (s_id r) (s_id s)); [lia|].
  destruct (Z.ltb_spec (s_id s) (s_id r)); [lia|].
  now rewrite IH.
Qed.

Lemma put_record_Forall (P : Submission -> Prop) s rs :
  P s -> Forall P rs -> Forall P (put_record s rs).
Proof.
  intros Hs. induction 1 as [|r rest Hr Hrest IH]; simpl.
  - now constructor.
  - destruct (s_id r =? s_id s); [now constructor|].
    destruct (s_id s <? s_id r); repeat constructor; assumption.
Qed.

Lemma find_put_record k s rs :
  List.find (fun r => s_id r =? k) (put_record s rs) =
  if s_id s =? k then Some s else List.find (fun r => s_id r =? k) rs.
Proof.
  induction rs as [|r rest IH]; simpl.
  - reflexivity.
  - destruct (Z.eqb_spec (s_id r) (s_id s)) as [E|NE]; simpl.
    + rewrite E. now destruct (s_id s =? k).
    + destruct (s_id s <? s_id r); simpl.
      * reflexivity.
      * rewrite IH.
        destruct (Z.eqb_spec (s_id r) k), (Z.eqb_spec (s_id s) k);
          try reflexivity; lia.
Qed.

Lemma record_at_put k s st :
  record_at k (put s st) = if s_id s =? k then Some s else record_at k st.
Proof. apply find_put_record. Qed.

Lemma record_at_delete k k' st :
  record_at k (delete k' st) = if k' =? k then None else record_at k st.
Proof.
  unfold record_at, delete; simpl.
  induction (records st) as [|r rest IH]; simpl.
  - now destruct (k' =? k).
  - destruct (Z.eqb_spec (s_id r) k'); simpl.
    + destruct (Z.eqb_spec (s_id r) k), (Z.eqb_spec k' k); try lia; exact IH.
    + destruct (Z.eqb_spec (s_id r) k); [|exact IH].
      destruct (Z.eqb_spec k' k); [lia|reflexivity].
Qed.

Lemma record_at_removeFromQueue k l st :
  record_at k (removeFromQueue l st) =
  if existsb (fun x => s_id x =? k) l then None else record_at k st.
Proof.
  assert (G : forall l st,
    record_at k (fold_left (fun acc x => delete (s_id x) acc) l st) =
    if existsb (fun x => s_id x =? k) l then None else record_at k st).
  { clear. induction l as [|x rest IH]; intros st; simpl; [reflexivity|].
    rewrite IH, record_at_delete.
    destruct (s_id x =? k); simpl; [now destruct (existsb _ rest)|reflexivity]. }
  destruct l; [reflexivity|apply G].
Qed.

Lemma record_at_updateQueue k l st :
  NoDup (List.map s_id l) ->
  record_at k (updateQueue l st) =
  match List.find (fun x => s_id x =? k) l with
  | Some x => Some x
  | None => record_at k st
  end.
Proof.
  assert (G : forall l st, NoDup (List.map s_id l) ->
    record_at k (fold_left (fun acc x => put x acc) l st) =
    match List.find (fun x => s_id x =? k) l with
    | Some x => Some x
    | None => record_at k st
    end).
  { clear. induction l as [|x rest IH]; intros st ND; simpl; [reflexivity|].
    apply NoDup_cons in ND as [Hx ND].
    rewrite IH by exact ND. rewrite record_at_put.
    destruct (Z.eqb_spec (s_id x) k) as [E|NE]; [|reflexivity].
    destruct (List.find _ rest) as [y|] eqn:F; [|reflexivity].
    apply find_some in F as [Hy Ey]. exfalso. apply Hx.
    apply Z.eqb_eq in Ey. replace (s_id x) with (s_id y) by lia.
    apply list_elem_of_In, in_map, Hy. }
  intros ND. destruct l; [reflexivity|now apply G].
Qed.

Lemma find_unique (l : list Submission) x :
  NoDup (List.map s_id l) -> In x l ->
  List.find (fun y => s_id y =? s_id x) l = Some x.
Proof.
  induction l as [|y rest IH]; intros ND Hx; simpl in *; [contradiction|].
  apply NoDup_cons in ND as [Hy ND].
  destruct Hx as [->|Hx]; [now rewrite Z.eqb_refl|].
  destruct (Z.eqb_spec (s_id y) (s_id x)) as [E|_]; [|now apply IH].
  exfalso. apply Hy. rewrite E. apply list_elem_of_In, in_map, Hx.
Qed.

Lemma find_absent (l : list Submission) k :
  ~ In k (List.map s_id l) -> List.find (fun y => s_id y =? k) l = None.
Proof.
  induction l as [|y rest IH]; intros Hk; simpl in *; [reflexivity|].
  destruct (Z.eqb_spec (s_id y) k); [tauto|]. apply IH. tauto.
Qed.

End StoreFacts.

(* ===================================================================== *)
(** * The key generator *)
(* ===================================================================== *)

Section KeyGenerator.
Import JS Wire IDB Vocabulary.

Lemma createObjectStore_keys_below : keys_below createObjectStore.
Proof. constructor. Qed.

Lemma add_appends d st :
  keys_below st ->
  records (add d st) = records st ++ [inject_key (keygen st) d].
Proof. intros H. unfold add; simpl. now apply put_record_fresh. Qed.

Lemma run_op_keygen op st : keygen st <= keygen (run_op op st).
Proof. destruct op; simpl; lia. Qed.

Lemma run_op_keys_below op st : keys_below st -> keys_below (run_op op st).
Proof.
  unfold keys_below. intros H. destruct op as [d|k|s]; simpl.
  - apply put_record_Forall; simpl; [lia|].
    eapply Forall_impl; [exact H|]. simpl. intros; lia.
  - apply Forall_forall. intros r Hr.
    apply list_elem_of_In, filter_In in Hr as [Hr _].
    rewrite Forall_forall in H. apply H, list_elem_of_In, Hr.
  - apply put_record_Forall; [lia|].
    eapply Forall_impl; [exact H|]. simpl. intros; lia.
Qed.

Lemma run_keygen ops st : keygen st <= keygen (run ops st).
Proof.
  revert st. induction ops as [|op rest IH]; intros st; simpl; [lia|].
  pose proof (run_op_keygen op st). pose proof (IH (run_op op st)).
  unfold run in *. lia.
Qed.

Lemma run_keys_below ops st : keys_below st -> keys_below (run ops st).
Proof.
  revert st. induction ops as [|op rest IH]; intros st H; simpl; [exact H|].
  apply IH, run_op_keys_below, H.
Qed.

(** Every key handed out along a history lies between the generator's
    number at the start and its number at the end. *)
Lemma assigned_below ops st k :
  In k (assigned ops st) -> keygen st <= k < keygen (run ops st).
Proof.
  revert st. induction ops as [|op rest IH]; intros st; simpl; [contradiction|].
  destruct op as [d|k'|s]; simpl.
  - intros [<-|H].
    + pose proof (run_keygen rest (add d st)). unfold run in *; simpl in *. lia.
    + apply IH in H. simpl in H. unfold run in *. simpl. lia.
  - intros H. apply IH in H. simpl in H. exact H.
  - intros H. apply IH in H. simpl in H. unfold run in *. simpl. lia.
Qed.

(** The keys handed out along a history are pairwise distinct. *)
Lemma assigned_NoDup ops st : NoDup (assigned ops st).
Proof.
  revert st. induction ops as [|op rest IH]; intros st; simpl; [constructor|].
  destruct op as [d|k'|s]; try apply IH.
  apply NoDup_cons. split; [|apply IH].
  intros H. apply list_elem_of_In, assigned_below in H. simpl in H. lia.
Qed.

End KeyGenerator.

(* ===================================================================== *)
(** * The background pass, [syncForms] *)
(* ===================================================================== *)

Section BackgroundPass.
Import JS Wire IDB ServiceWorker Vocabulary.

Variable net : nat -> Request -> Outcome.

Lemma or_string_self s : or_string (Some s) EmptyString = s.
Proof. now destruct s. Qed.

Lemma bump_id s : s_id (bump s) = s_id s.
Proof. reflexivity. Qed.

Lemma bump_attempts s : s_attempts (bump s) = s_attempts s + 1.
Proof.
  unfold bump, or_number; simpl. destruct (Z.eqb_spec (s_attempts s) 0); lia.
Qed.

Lemma loop_issued queue acc :
  issued (fold_left (loop_body net) queue acc) =
  issued acc ++
  List.map replay_request (List.filter (fun s => negb (terminal s)) queue).
Proof.
  revert acc. induction queue as [|s rest IH]; intros acc; simpl.
  - now rewrite app_nil_r.
  - rewrite IH. unfold loop_body, terminal.
    destruct (3 <=? s_attempts s); simpl; [reflexivity|].
    destruct (net _ _) as [|[] ?]; simpl; now rewrite <- app_assoc.
Qed.

(** The network calls of a pass: one per record that is not terminal, in
    store order, and none for a terminal record. *)
Lemma syncForms_requests sw :
  requests (snd (syncForms net sw)) =
  List.map replay_request
    (List.filter (fun s => negb (terminal s)) (getQueue (idb sw))).
Proof.
  unfold syncForms. destruct (getQueue (idb sw)) as [|s rest] eqn:E.
  - reflexivity.
  - cbn [snd requests]. now rewrite loop_issued.
Qed.

Lemma loop_body_ids acc s :
  List.map s_id (successfulSubmissions (loop_body net acc s) ++
                 failedSubmissions (loop_body net acc s)) ≡ₚ
  s_id s :: List.map s_id (successfulSubmissions acc ++ failedSubmissions acc).
Proof.
  assert (Tail : forall (a : Z) (xs ys : list Z),
             xs ++ ys ++ [a] ≡ₚ a :: xs ++ ys).
  { intros a xs ys. rewrite app_assoc. apply Permutation_app_comm. }
  assert (Mid : forall (a : Z) (xs ys : list Z),
             (xs ++ [a]) ++ ys ≡ₚ a :: xs ++ ys).
  { intros a xs ys. rewrite <- app_assoc. symmetry. apply Permutation_middle. }
  unfold loop_body. destruct (3 <=? s_attempts s); simpl.
  - rewrite !map_app. apply Tail.
  - destruct (net _ _) as [|[] ?]; simpl; rewrite !map_app; simpl.
    + apply Tail.
    + apply Mid.
    + apply Tail.
Qed.

(** Every record of the queue ends up in exactly one of the two lists. *)
Lemma loop_ids queue acc :
  List.map s_id (successfulSubmissions (fold_left (loop_body net) queue acc) ++
                 failedSubmissions (fold_left (loop_body net) queue acc)) ≡ₚ
  List.map s_id (successfulSubmissions acc ++ failedSubmissions acc) ++
  List.map s_id queue.
Proof.
  revert acc. induction queue as [|s rest IH]; intros acc; simpl.
  - now rewrite app_nil_r.
  - rewrite IH, loop_body_ids. simpl. now rewrite Permutation_middle.
Qed.

Lemma loop_body_mono acc s x :
  (In x (successfulSubmissions acc) ->
   In x (successfulSubmissions (loop_body net acc s))) /\
  (In x (failedSubmissions acc) ->
   In x (failedSubmissions (loop_body net acc s))).
Proof.
  unfold loop_body. destruct (3 <=? s_attempts s); simpl.
  - split; intros H; [exact H|apply in_or_app; now left].
  - destruct (net _ _) as [|[] ?]; simpl;
      split; intros H; try exact H; apply in_or_app; now left.
Qed.

Lemma loop_mono queue acc x :
  (In x (successfulSubmissions acc) ->
   In x (successfulSubmissions (fold_left (loop_body net) queue acc))) /\
  (In x (failedSubmissions acc) ->
   In x (failedSubmissions (fold_left (loop_body net) queue acc))).
Proof.
  revert acc. induction queue as [|s rest IH]; intros acc; simpl; [tauto|].
  destruct (IH (loop_body net acc s)) as [A B].
  destruct (loop_body_mono acc s x) as [C D]. tauto.
Qed.

Lemma loop_body_classifies acc s :
  (terminal s = true /\ In s (failedSubmissions (loop_body net acc s))) \/
  (terminal s = false /\
   (In s (successfulSubmissions (loop_body net acc s)) \/
    In (bump s) (failedSubmissions (loop_body net acc s)))).
Proof.
  unfold loop_body, terminal. destruct (3 <=? s_attempts s); simpl.
  - left. split; [reflexivity|]. apply in_or_app; right; now left.
  - right. split; [reflexivity|].
    destruct (net _ _) as [|[] ?]; simpl;
      [right|left|right]; apply in_or_app; right; now left.
Qed.

Lemma loop_classifies queue acc s :
  In s queue ->
  let l := fold_left (loop_body net) queue acc in
  (terminal s = true /\ In s (failedSubmissions l)) \/
  (terminal s = false /\
   (In s (successfulSubmissions l) \/ In (bump s) (failedSubmissions l))).
Proof.
  revert acc. induction queue as [|y rest IH]; intros acc Hs; simpl in *;
    [contradiction|].
  destruct Hs as [->|Hs]; [|now apply IH].
  destruct (loop_body_classifies acc s) as [[T H]|[T [H|H]]].
  - left. split; [exact T|]. now apply loop_mono.
  - right. split; [exact T|]. left. now apply loop_mono.
  - right. split; [exact T|]. right. now apply loop_mono.
Qed.

(** One pass of [syncForms] over a store with distinct keys, record by
    record: a terminal record is still there, as it was; any other record
    is gone or is there with [attempts] one higher. *)
Lemma syncForms_record_at sw s :
  NoDup (List.map s_id (getQueue (idb sw))) ->
  In s (getQueue (idb sw)) ->
  let st' := idb (fst (syncForms net sw)) in
  (terminal s = true /\ record_at (s_id s) st' = Some s) \/
  (terminal s = false /\
   (record_at (s_id s) st' = None \/ record_at (s_id s) st' = Some (bump s))).
Proof.
  intros ND Hs. unfold syncForms.
  destruct (getQueue (idb sw)) as [|q0 qs] eqn:Q; [contradiction|].
  rewrite <- Q in *. clear Q q0 qs. cbn zeta. cbn [fst idb].
  set (l := fold_left (loop_body net) (getQueue (idb sw)) (mkLoop [] [] [])).
  pose proof (loop_ids (getQueue (idb sw)) (mkLoop [] [] [])) as P.
  fold l in P. simpl in P.
  assert (ND' : NoDup (List.map s_id (successfulSubmissions l ++
                                       failedSubmissions l))).
  { now rewrite P. }
  rewrite map_app in ND'. apply NoDup_app in ND' as (NDs & Disj & NDf).
  rewrite record_at_updateQueue by exact NDf.
  rewrite record_at_removeFromQueue.
  destruct (loop_classifies (getQueue (idb sw)) (mkLoop [] [] []) s Hs)
    as [[T H]|[T [H|H]]]; fold l in H.
  - left. split; [exact T|]. now rewrite find_unique.
  - right. split; [exact T|]. left.
    rewrite find_absent.
    + replace (existsb _ _) with true; [reflexivity|].
      symmetry. apply existsb_exists. exists s.
      split; [exact H|apply Z.eqb_refl].
    + intros Hin. apply (Disj (s_id s)); apply list_elem_of_In;
        [apply in_map, H|exact Hin].
  - right. split; [exact T|]. right.
    rewrite <- (bump_id s). now rewrite find_unique.
Qed.

(** A pass that found records tells every window client how many it
    counted on each side; together that is every record of the queue. *)
Lemma syncForms_summary sw :
  getQueue (idb sw) <> [] ->
  exists count failed,
    (count + failed)%nat = length (getQueue (idb sw)) /\
    broadcasts (snd (syncForms net sw)) =
    List.map (fun client => (client, FormsSynced count failed)) (clients sw).
Proof.
  intros NE. unfold syncForms.
  destruct (getQueue (idb sw)) as [|q0 qs] eqn:Q; [congruence|].
  rewrite <- Q. clear Q NE q0 qs. cbn [snd broadcasts].
  set (l := fold_left (loop_body net) (getQueue (idb sw)) (mkLoop [] [] [])).
  exists (length (successfulSubmissions l)), (length (failedSubmissions l)).
  split; [|reflexivity].
  pose proof (loop_ids (getQueue (idb sw)) (mkLoop [] [] [])) as P.
  fold l in P. simpl in P. apply Permutation_length in P.
  rewrite !length_map, length_app in P. exact P.
Qed.

End BackgroundPass.

(** The sale is delivered and leaves the queue; the expense is refused,
    stays, and has one attempt on record. *)
Example one_delivered_one_refused :
  let after := ServiceWorker.syncForms Examples.sales_up Examples.two_queued_sw in
  List.map (fun r => (IDB.s_url r, IDB.s_attempts r))
    (ServiceWorker.getQueue (ServiceWorker.idb (fst after))) =
    [("/api/addExpense", 1)] /\
  List.map Wire.rq_url (ServiceWorker.requests (snd after)) =
    ["/api/addSale"; "/api/addExpense"] /\
  ServiceWorker.broadcasts (snd after) = [("window-1", Wire.FormsSynced 1 1)].
Proof. repeat split. Qed.

(** A submission that failed twice fails a third time: it stays, with
    three attempts on record, and no later pass calls the network for it
    or takes it out of the store. *)
Example third_failure_then_idle_passes :
  List.map IDB.s_attempts
    (ServiceWorker.getQueue (ServiceWorker.idb Examples.exhausted_sw)) = [3] /\
  ServiceWorker.syncForms Examples.sales_up Examples.exhausted_sw =
    (Examples.exhausted_sw,
     {| ServiceWorker.requests := [];
        ServiceWorker.broadcasts := [("window-1", Wire.FormsSynced 0 1)];
        ServiceWorker.replies := [] |}).
Proof. repeat split. Qed.

(* ===================================================================== *)
(** * The foreground pass, [syncPendingForms] *)
(* ===================================================================== *)

Section ForegroundPass.
Import JS Wire Page Vocabulary.

(** [q !== form] fails for the entry itself. *)
Ltac filtered_out :=
  let H := fresh in
  intros H; apply filter_In in H as [_ H]; now rewrite Nat.eqb_refl in H.

Variable net : nat -> Request -> Outcome.

Lemma same_env_refl p : same_env p p.
Proof. now repeat split. Qed.

Lemma same_env_trans p1 p2 p3 :
  same_env p1 p2 -> same_env p2 p3 -> same_env p1 p3.
Proof. unfold same_env. intuition congruence. Qed.

Lemma setCachedData_env type data p : same_env p (setCachedData type data p).
Proof. now repeat split. Qed.

Lemma cache_response_env table url data p p' :
  cache_response table url data p = Some p' -> same_env p p'.
Proof.
  induction table as [|[endpoint type] rest IH]; simpl; intros H.
  - injection H as <-. apply same_env_refl.
  - destruct (includes url endpoint); [|now apply IH].
    destruct (get_prop data "success") as [success|]; [|discriminate].
    destruct (truthy success); [|now apply IH].
    destruct (get_prop data "data"); [|discriminate].
    injection H as <-. apply setCachedData_env.
Qed.

Lemma fetch_request_env p p' url options :
  same_env p p' -> fetch_request p' url options = fetch_request p url options.
Proof.
  intros (_ & Ht & Hc & _). unfold fetch_request, getCSRFToken.
  now rewrite Ht, Hc.
Qed.

Lemma fetchData_env calls p url options p' evs c :
  fetchData net calls p url options = (p', evs, c) -> same_env p p'.
Proof.
  unfold fetchData. destruct (offline p).
  - intros [= <- _ _]. apply same_env_refl.
  - destruct (net _ _) as [|[] [data|]]; try (intros [= <- _ _]; apply same_env_refl).
    destruct (cache_response _ _ _ _) eqn:C.
    + intros [= <- _ _]. eapply cache_response_env, C.
    + intros [= <- _ _]. apply same_env_refl.
Qed.

Lemma fetchData_events calls p url options p' evs c :
  fetchData net calls p url options = (p', evs, c) ->
  evs = if offline p then [] else [Fetch (fetch_request p url options)].
Proof.
  unfold fetchData. destruct (offline p).
  - now intros [= _ <- _].
  - destruct (net _ _) as [|[] [data|]]; try now intros [= _ <- _].
    destruct (cache_response _ _ _ _); now intros [= _ <- _].
Qed.

Lemma fetchData_offline calls p url options :
  offline p = true ->
  fetchData net calls p url options = (p, [], Returned (handleOfflineData p url)).
Proof. intros H. unfold fetchData. now rewrite H. Qed.

Lemma requests_of_app t1 t2 :
  requests_of (t1 ++ t2) = requests_of t1 ++ requests_of t2.
Proof. apply omap_app. Qed.

(** *** One turn of the loop *)

Lemma pass_body_objs_other st i j :
  j <> i -> objs (pass_body net st i) !! j = objs st !! j.
Proof.
  intros NE. unfold pass_body. destruct (objs st !! i) as [form|]; [|reflexivity].
  destruct (3 <=? q_attempts form); [reflexivity|].
  destruct (fetchData _ _ _ _ _) as [[p' evs] [v|]]; simpl; [reflexivity|].
  apply list_lookup_insert_ne. congruence.
Qed.

Lemma pass_body_env st i : same_env (page st) (page (pass_body net st i)).
Proof.
  unfold pass_body. destruct (objs st !! i) as [form|]; [|apply same_env_refl].
  destruct (3 <=? q_attempts form); [apply same_env_refl|].
  destruct (fetchData _ _ _ _ _) as [[p' evs] c] eqn:F.
  apply fetchData_env in F. now destruct c.
Qed.

Lemma pass_body_queue st i q :
  In q (queue (pass_body net st i)) -> In q (queue st).
Proof.
  unfold pass_body. destruct (objs st !! i) as [form|]; [|tauto].
  destruct (3 <=? q_attempts form); simpl.
  - intros H. now apply filter_In in H.
  - destruct (fetchData _ _ _ _ _) as [[p' evs] [v|]]; simpl; [|tauto].
    intros H. now apply filter_In in H.
Qed.

Lemma pass_body_requests st i :
  offline (page st) = false ->
  requests_of (trace (pass_body net st i)) =
  requests_of (trace st) ++
  match objs st !! i with
  | Some form => if exhausted form then [] else [replay_fetch (page st) form]
  | None => []
  end.
Proof.
  intros Off. unfold pass_body, exhausted, replay_fetch, replay_options.
  destruct (objs st !! i) as [form|]; [|now rewrite app_nil_r].
  destruct (3 <=? q_attempts form); simpl.
  - now rewrite requests_of_app.
  - destruct (fetchData _ _ _ _ _) as [[p' evs] c] eqn:F.
    apply fetchData_events in F. rewrite Off in F. subst evs.
    destruct c; simpl; rewrite !requests_of_app; simpl;
      rewrite ?app_nil_r; reflexivity.
Qed.


Lemma pass_body_drops_exhausted st i form :
  objs st !! i = Some form ->
  exhausted form = true ->
  ~ In i (queue (pass_body net st i)) /\
  requests_of (trace (pass_body net st i)) = requests_of (trace st).
Proof.
  intros Hi Hx. unfold pass_body. rewrite Hi.
  unfold exhausted in Hx. rewrite Hx. simpl. split.
  - filtered_out.
  - rewrite requests_of_app. simpl. now rewrite app_nil_r.
Qed.

(** *** The whole loop *)

Lemma fold_objs_other l st j :
  ~ In j l -> objs (fold_left (pass_body net) l st) !! j = objs st !! j.
Proof.
  revert st. induction l as [|i rest IH]; intros st Hj; simpl; [reflexivity|].
  simpl in Hj. rewrite IH by tauto. apply pass_body_objs_other.
  intros ->. tauto.
Qed.

Lemma fold_env l st : same_env (page st) (page (fold_left (pass_body net) l st)).
Proof.
  revert st. induction l as [|i rest IH]; intros st; simpl; [apply same_env_refl|].
  eapply same_env_trans; [apply pass_body_env|apply IH].
Qed.

Lemma fold_queue l st q :
  In q (queue (fold_left (pass_body net) l st)) -> In q (queue st).
Proof.
  revert st. induction l as [|i rest IH]; intros st; simpl; [tauto|].
  intros H. eapply pass_body_queue, IH, H.
Qed.


Lemma omap_agree {A B} (f g : A -> option B) (l : list A) :
  (forall x, In x l -> f x = g x) -> omap f l = omap g l.
Proof.
  induction l as [|x rest IH]; intros H; csimpl; [reflexivity|].
  rewrite (H x) by now left. rewrite IH; [reflexivity|].
  intros y Hy. apply H. now right.
Qed.

Lemma omap_positions {A B} (f : A -> option B) (l : list A) :
  omap (fun i => match l !! i with Some x => f x | None => None end)
       (seq 0 (length l)) = omap f l.
Proof.
  induction l as [|x l IH] using rev_ind; [reflexivity|].
  rewrite length_app, seq_app, !omap_app. simpl.
  rewrite list_lookup_middle by reflexivity. f_equal.
  rewrite <- IH. apply omap_agree. intros i Hi. apply in_seq in Hi.
  rewrite lookup_app_l by lia. reflexivity.
Qed.

Lemma omap_filter_map {A B} (keep : A -> bool) (g : A -> B) (l : list A) :
  omap (fun x => if keep x then Some (g x) else None) l =
  List.map g (List.filter keep l).
Proof.
  induction l as [|x rest IH]; csimpl; [reflexivity|].
  destruct (keep x); csimpl; now rewrite IH.
Qed.

Lemma fold_requests l st :
  NoDup l -> offline (page st) = false ->
  requests_of (trace (fold_left (pass_body net) l st)) =
  requests_of (trace st) ++
  omap (fun i => match objs st !! i with
                 | Some form => if negb (exhausted form)
                                then Some (replay_fetch (page st) form)
                                else None
                 | None => None
                 end) l.
Proof.
  revert st. induction l as [|i rest IH]; intros st ND Off; csimpl.
  - now rewrite app_nil_r.
  - apply NoDup_cons in ND as [Hi ND].
    pose proof (pass_body_env st i) as Env.
    rewrite IH; [|exact ND|destruct Env as [E _]; congruence].
    rewrite pass_body_requests by exact Off. rewrite <- app_assoc. f_equal.
    rewrite (omap_agree _
               (fun j => match objs st !! j with
                         | Some form => if negb (exhausted form)
                                        then Some (replay_fetch (page st) form)
                                        else None
                         | None => None
                         end) rest).
    + destruct (objs st !! i) as [form|]; [|reflexivity].
      now destruct (exhausted form).
    + intros j Hj. rewrite pass_body_objs_other.
      * destruct (objs st !! j) as [form|]; [|reflexivity].
        unfold replay_fetch. now rewrite (fetch_request_env _ _ _ _ Env).
      * intros ->. apply Hi, list_elem_of_In, Hj.
Qed.

(** The requests of a foreground pass run online: one for every entry
    that is not exhausted, in queue order. *)
Lemma syncPendingForms_requests p :
  offline p = false ->
  requests_of (snd (syncPendingForms net p)) =
  List.map (replay_fetch p)
    (List.filter (fun form => negb (exhausted form)) (pending p)).
Proof.
  intros Off. unfold syncPendingForms, pending.
  destruct (default [] (formQueue p)) as [|f0 fs] eqn:Q; [reflexivity|].
  rewrite <- Q. clear Q f0 fs. cbn [snd]. unfold run_pass.
  rewrite fold_requests; [|apply NoDup_seq|exact Off]. simpl.
  rewrite (omap_positions
             (fun form => if negb (exhausted form)
                          then Some (replay_fetch p form) else None)).
  apply omap_filter_map.
Qed.








Lemma run_pass_split p queue0 i :
  (i < length queue0)%nat ->
  run_pass net p queue0 =
  fold_left (pass_body net) (seq (S i) (length queue0 - S i))
    (pass_body net (pass_before net p queue0 i) i).
Proof.
  intros Hi. unfold run_pass, pass_before.
  replace (length queue0) with (i + S (length queue0 - S i))%nat at 1 by lia.
  rewrite seq_app, fold_left_app. reflexivity.
Qed.

Lemma pass_before_objs p queue0 i :
  objs (pass_before net p queue0 i) !! i = queue0 !! i.
Proof.
  unfold pass_before. rewrite fold_objs_other; [reflexivity|].
  intros H. apply in_seq in H. lia.
Qed.


Lemma run_pass_drops_exhausted p queue0 i form :
  queue0 !! i = Some form ->
  exhausted form = true ->
  ~ In i (queue (run_pass net p queue0)).
Proof.
  intros Hi Hx Hin.
  rewrite (run_pass_split p queue0 i) in Hin by (eapply lookup_lt_Some, Hi).
  apply fold_queue in Hin. revert Hin.
  eapply pass_body_drops_exhausted; [|exact Hx].
  now rewrite pass_before_objs.
Qed.

End ForegroundPass.

(* ===================================================================== *)
(** * Enqueueing: [queueForm], the [queue-form] message, [addToQueue] *)
(* ===================================================================== *)

Section Enqueue.
Import JS Wire IDB ServiceWorker Page Vocabulary System.

(** The entry [queueForm] appends to the localforage list. *)
Lemma queueForm_pending now fd p :
  exists e,
    pending (fst (queueForm now fd p)) = pending p ++ [e] /\
    q_url e = fd_url fd /\ q_method e = fd_method fd /\
    q_data e = fd_data fd /\ q_body e = fd_body fd /\
    q_formId e = fd_formId fd /\
    q_timestamp e = now /\ q_attempts e = 0 /\
    q_csrfToken e = getCSRFToken p.
Proof.
  unfold queueForm, pending. eexists.
  destruct (controller p); simpl; repeat split.
Qed.

(** What the service worker does with the trace of a [queueForm] call
    made under its control: one [addToQueue], of the form data with the
    page's CSRF token. *)
Lemma deliver_queueForm now now_sw fd p sw :
  controller p = true ->
  exists fd',
    deliver now_sw (snd (queueForm now fd p)) sw =
    {| idb := addToQueue now_sw fd' (idb sw); clients := clients sw |} /\
    fd_url fd' = fd_url fd /\ fd_method fd' = fd_method fd /\
    fd_headers fd' = fd_headers fd /\ fd_body fd' = fd_body fd /\
    fd_formId fd' = fd_formId fd /\ fd_timestamp fd' = fd_timestamp fd /\
    fd_attempts fd' = fd_attempts fd /\
    fd_csrfToken fd' = Some (getCSRFToken p).
Proof.
  intros C. unfold queueForm. rewrite C.
  eexists. split; [reflexivity|]. repeat split.
  cbn [fd_csrfToken]. f_equal. apply or_string_self.
Qed.

(** The record [addToQueue] stores. *)
Lemma addToQueue_In now fd st :
  exists r,
    In r (getQueue (addToQueue now fd st)) /\
    s_id r = keygen st /\ s_url r = fd_url fd /\
    s_method r = or_string (fd_method fd) "POST" /\
    s_body r = or_value (fd_body fd) (VObj []) /\
    s_formId r = fd_formId fd /\
    s_timestamp r = or_string (fd_timestamp fd) now /\
    s_attempts r = or_number (fd_attempts fd) 0 /\
    s_csrfToken r = or_string (fd_csrfToken fd) EmptyString /\
    (keys_below st -> getQueue (addToQueue now fd st) = getQueue st ++ [r]).
Proof.
  unfold addToQueue, getQueue, getAll, add. simpl.
  eexists. split; [apply put_record_In|]. simpl. repeat split.
  intros KB. now apply put_record_fresh.
Qed.




Lemma syncPendingForms_offline_flag net p :
  offline (fst (syncPendingForms net p)) = offline p.
Proof.
  unfold syncPendingForms.
  destruct (default [] (formQueue p)) as [|f0 fs] eqn:Q; [reflexivity|].
  rewrite <- Q. cbn [fst]. unfold run_pass.
  destruct (fold_env net (seq 0 (length (default [] (formQueue p))))
              {| objs := default [] (formQueue p);
                 queue := seq 0 (length (default [] (formQueue p)));
                 page := p; trace := [] |}) as [E _].
  exact E.
Qed.

End Enqueue.

(* ===================================================================== *)
(** * The claims *)
(* ===================================================================== *)

Section Claims.
Import JS Wire IDB ServiceWorker Page Vocabulary System Examples.

(** ** C1 *)

(** C1, on the background pass.  The claim: a submission whose [attempts]
    is at least 3 at the start of a pass gets no network call and is
    removed from the queue during that pass.  [exhausted_sw] holds one
    record, with [attempts = 3] after three failed passes.  Whatever the
    network does, [syncForms] issues no request for it, and the service
    worker it leaves behind is the one it started from: the record is
    still in the store, and will be after every further pass.  (The
    foreground pass does drop such an entry: [run_pass_drops_exhausted].) *)
Theorem syncForms_never_drops_exhausted_submission :
  forall net : nat -> Request -> Outcome,
    List.map s_attempts (getQueue (idb exhausted_sw)) = [3] /\
    requests (snd (syncForms net exhausted_sw)) = [] /\
    fst (syncForms net exhausted_sw) = exhausted_sw.
Proof. intros net. repeat split. Qed.

(** ** C2 *)

(** C2 as stated fails: a pass over the empty queue of [idle_sw], which
    has a window client, does not send that client the summary
    [{type: "forms-synced", count: 0, failed: 0}]. *)
Lemma syncForms_empty_queue_no_summary :
  ~ (requests (snd (syncForms down idle_sw)) = [] /\
     In ("window-1", FormsSynced 0 0)
        (broadcasts (snd (syncForms down idle_sw)))).
Proof. intros [_ H]. exact H. Qed.

(** C2, amended: a sync pass invoked on an empty queue returns at once.
    It performs no network call, changes nothing and sends no event at
    all, in the service worker ([syncForms]) as in the page
    ([syncPendingForms]). *)
Theorem sync_pass_on_empty_queue_is_silent :
  forall (net : nat -> Request -> Outcome) (sw : SW) (p : State),
    getQueue (idb sw) = [] -> pending p = [] ->
    syncForms net sw = (sw, no_effects) /\
    syncPendingForms net p = (p, []).
Proof.
  intros net sw p Hsw Hp. unfold syncForms, syncPendingForms.
  unfold pending in Hp. now rewrite Hsw, Hp.
Qed.

Lemma sync_pass_on_empty_queue_is_silent_witness :
  getQueue (idb idle_sw) = [] /\ pending offline_page = [] /\
  syncForms down idle_sw = (idle_sw, no_effects) /\
  syncPendingForms down offline_page = (offline_page, []).
Proof.
  split; [reflexivity|]. split; [reflexivity|].
  apply (sync_pass_on_empty_queue_is_silent down idle_sw offline_page);
    reflexivity.
Defined.

(** ** C3 *)

(** C3, on the background pass.  The claim: after a pass, a submission
    that was queued before it is absent, or present with [attempts] one
    above its value before the pass.  The record of [exhausted_sw] has key
    1 and [attempts = 3]; after a pass of [syncForms], whatever the
    network does, key 1 still holds that very record: it is not absent,
    and its [attempts] is 3, not 4.  (For a record that is not terminal
    the claim holds: [syncForms_record_at].) *)
Theorem syncForms_exhausted_submission_stays_unchanged :
  forall net : nat -> Request -> Outcome,
    exists r,
      record_at 1 (idb exhausted_sw) = Some r /\ s_attempts r = 3 /\
      record_at 1 (idb (fst (syncForms net exhausted_sw))) = Some r.
Proof. intros net. eexists. repeat split. Qed.

(** ** C4 *)

(** C4 as stated fails: [plain_sw] holds a submission whose stored headers
    say [Content-Type: text/plain]; the request that replays it carries
    that value, not the fixed [application/json]. *)
Lemma replay_stored_content_type_prevails :
  ~ (forall rq, In rq (requests (snd (syncForms down plain_sw))) ->
                rq_headers rq !! "Content-Type" = Some "application/json").
Proof.
  intros H.
  specialize (H _ (or_introl eq_refl)). vm_compute in H. discriminate H.
Qed.

(** C4, amended: for every submission of the queue with [attempts < 3],
    the pass issues a request to the submission's [url] with its [method]
    and with the JSON serialization of its [body] as body.  The headers
    are the fixed [Content-Type: application/json] and an [X-CSRF-Token]
    equal to the submission's [csrfToken], overlaid with the submission's
    stored headers: a stored header prevails over a fixed one of the same
    name, the fixed ones apply where the stored headers have none, and
    there are no other headers. *)
Theorem replay_request_shape :
  forall (net : nat -> Request -> Outcome) (sw : SW) (s : Submission),
    In s (getQueue (idb sw)) -> s_attempts s < 3 ->
    exists rq,
      In rq (requests (snd (syncForms net sw))) /\
      rq_url rq = s_url s /\
      rq_method rq = s_method s /\
      rq_body rq = stringify (s_body s) /\
      (forall name v, s_headers s !! name = Some v ->
                      rq_headers rq !! name = Some v) /\
      (s_headers s !! "Content-Type" = None ->
       rq_headers rq !! "Content-Type" = Some "application/json") /\
      (s_headers s !! "X-CSRF-Token" = None ->
       rq_headers rq !! "X-CSRF-Token" = Some (s_csrfToken s)) /\
      (forall name, s_headers s !! name = None ->
                    name <> "Content-Type" -> name <> "X-CSRF-Token" ->
                    rq_headers rq !! name = None).
Proof.
  intros net sw s Hs Ha. exists (replay_request s). split.
  - rewrite syncForms_requests. apply in_map, filter_In. split; [exact Hs|].
    unfold terminal. destruct (Z.leb_spec 3 (s_attempts s)); [lia|reflexivity].
  - unfold replay_request; simpl. repeat split.
    + intros name v H. now apply lookup_union_Some_l.
    + intros H. rewrite lookup_union_r by exact H.
      rewrite lookup_insert_ne by discriminate. apply lookup_singleton_eq.
    + intros H. rewrite lookup_union_r by exact H.
      rewrite lookup_insert_eq. f_equal. apply or_string_self.
    + intros name H N1 N2. rewrite lookup_union_r by exact H.
      rewrite lookup_insert_ne by congruence.
      apply lookup_singleton_ne. congruence.
Qed.

Lemma replay_request_shape_witness :
  In sale_record (getQueue (idb queued_sw)) /\ s_attempts sale_record < 3 /\
  exists rq,
    In rq (requests (snd (syncForms down queued_sw))) /\
    rq_url rq = "/api/addSale" /\ rq_method rq = "POST" /\
    rq_body rq = stringify (VObj [("amount", VNum 5)]).
Proof.
  assert (Hin : In sale_record (getQueue (idb queued_sw))) by (now left).
  assert (Hlt : s_attempts sale_record < 3) by (simpl; lia).
  split; [exact Hin|]. split; [exact Hlt|].
  destruct (replay_request_shape down queued_sw sale_record Hin Hlt)
    as (rq & Hrq & Hu & Hm & Hb & _).
  exists rq. repeat split; assumption.
Defined.

(** ** C5 *)

(** C5 as stated fails: [retriedForm] carries [attempts: 2]; after
    [queueForm] under a controller and the delivery of its message, the
    object store holds no record with [attempts = 0]: the one record it
    holds kept the 2. *)
Lemma enqueue_keeps_supplied_attempts :
  ~ (exists r,
       In r (getQueue (idb (deliver "t1"
                              (snd (queueForm "t0" retriedForm offline_page))
                              idle_sw))) /\
       s_attempts r = 0).
Proof.
  intros (r & [<-|[]] & H). vm_compute in H. discriminate H.
Qed.

(** C5, amended.  The entry [queueForm] appends to the localforage list
    is stamped with the current time and [attempts = 0] and carries the
    current CSRF token (it has no [id]), whether or not a service worker
    controls the page.  Under a controller, the object store, after any
    history, gets one more record at the end of [getAll]: its [id] is the
    key generator's number, which is no key the generator handed out
    before and no key in the store; it carries the current CSRF token;
    its [timestamp] and [attempts] are those the form data supplies, if
    it supplies truthy ones, and the service worker's current time and 0
    otherwise.  Without a controller the object store gets nothing. *)
Theorem enqueue_stamps_and_assigns_fresh_id :
  forall (ops : list Op) (windows : list string) (now now_sw : string)
         (fd : FormData) (p : State),
    let st := run ops createObjectStore in
    let p' := fst (queueForm now fd p) in
    let sw' := deliver now_sw (snd (queueForm now fd p))
                 {| idb := st; clients := windows |} in
    (exists e,
       pending p' = pending p ++ [e] /\
       q_timestamp e = now /\ q_attempts e = 0 /\
       q_csrfToken e = getCSRFToken p) /\
    (controller p = true ->
     exists r,
       getQueue (idb sw') = getQueue st ++ [r] /\
       s_id r = keygen st /\
       ~ In (s_id r) (assigned ops createObjectStore) /\
       ~ In (s_id r) (List.map s_id (getQueue st)) /\
       s_csrfToken r = getCSRFToken p /\
       s_timestamp r = or_string (fd_timestamp fd) now_sw /\
       s_attempts r = or_number (fd_attempts fd) 0 /\
       (fd_timestamp fd = None -> s_timestamp r = now_sw) /\
       (fd_attempts fd = None -> s_attempts r = 0)) /\
    (controller p = false -> getQueue (idb sw') = getQueue st).
Proof.
  intros ops windows now now_sw fd p st p' sw'.
  split; [|split].
  - destruct (queueForm_pending now fd p)
      as (e & He & _ & _ & _ & _ & _ & Ht & Ha & Hc).
    exists e. repeat split; assumption.
  - intros C.
    destruct (deliver_queueForm now now_sw fd p
                {| idb := st; clients := windows |} C)
      as (fd' & Hd & _ & _ & _ & _ & _ & Hts & Hat & Hcs).
    fold sw' in Hd. rewrite Hd. cbn [idb].
    destruct (addToQueue_In now_sw fd' st)
      as (r & _ & Hid & _ & _ & _ & _ & Ht & Ha & Hc & Happ).
    assert (KB : keys_below st).
    { apply run_keys_below, createObjectStore_keys_below. }
    exists r. split; [now apply Happ|]. split; [exact Hid|].
    split.
    { intros H. apply assigned_below in H. fold st in H. lia. }
    split.
    { intros H. apply in_map_iff in H as (x & Hx & Hin).
      unfold keys_below in KB. rewrite Forall_forall in KB.
      apply list_elem_of_In, KB in Hin. lia. }
    rewrite Hc, Ht, Ha, Hcs, Hts, Hat. repeat split.
    + apply or_string_self.
    + now intros ->.
    + now intros ->.
  - intros C. unfold sw', queueForm. now rewrite C.
Qed.

Lemma enqueue_stamps_and_assigns_fresh_id_witness :
  controller offline_page = true /\
  (exists e,
     pending (fst (queueForm "t0" saleForm offline_page)) =
     pending offline_page ++ [e] /\
     q_timestamp e = "t0" /\ q_attempts e = 0 /\ q_csrfToken e = "tok") /\
  (exists r,
     getQueue (idb (deliver "t1" (snd (queueForm "t0" saleForm offline_page))
                      queued_sw)) = getQueue (idb queued_sw) ++ [r] /\
     s_id r = 2 /\ s_attempts r = 0 /\ s_timestamp r = "t1").
Proof.
  split; [reflexivity|].
  destruct (enqueue_stamps_and_assigns_fresh_id sale_history
              ["window-1"] "t0" "t1" saleForm offline_page)
    as [(e & He & Ht & Ha & Hc) [Hr _]].
  destruct (Hr eq_refl) as (r & Hq & Hid & _ & _ & _ & _ & _ & Hts & Hat).
  split.
  - exists e. repeat split; assumption.
  - exists r. split; [exact Hq|]. split; [exact Hid|].
    split; [now apply Hat|now apply Hts].
Defined.

(** ** C6 *)



(** ** C7 *)

(** C7: the [online] listener clears the offline flag, shows the
    reconnected toast and runs the sync pass, which, the page being
    online, issues one request for every queued form that is not
    exhausted; the [offline] listener sets the flag and shows the
    disconnected toast and does nothing else: no request, no message, the
    queue untouched. *)
Theorem connectivity_listeners :
  forall (net : nat -> Request -> Outcome) (p : State),
    (exists evs,
       snd (on_online net p) =
         Toast "Back online. Syncing data..." "success" :: evs /\
       (fst (on_online net p), evs) =
         syncPendingForms net (setOfflineStatus false p)) /\
    offline (fst (on_online net p)) = false /\
    requests_of (snd (on_online net p)) =
      List.map (replay_fetch p)
        (List.filter (fun form => negb (exhausted form)) (pending p)) /\
    snd (on_offline p) =
      [Toast "You are now offline. Working in offline mode." "warning"] /\
    offline (fst (on_offline p)) = true /\
    formQueue (fst (on_offline p)) = formQueue p.
Proof.
  intros net p. unfold on_online.
  pose proof (syncPendingForms_offline_flag net (setOfflineStatus false p)) as Fl.
  pose proof (syncPendingForms_requests net (setOfflineStatus false p) eq_refl) as Rq.
  destruct (syncPendingForms net (setOfflineStatus false p)) as [p2 evs].
  cbn [fst snd] in *. repeat split.
  - exists evs. split; reflexivity.
  - exact Fl.
  - exact Rq.
Qed.

(** ** C8 *)

(** C8: [DataManager.submitForm], called offline on a page a service
    worker controls, keeps the payload under [data] in the localforage
    entry, while the record the service worker stores for it has
    [body = {}]; that record has [attempts = 0], so a pass of [syncForms]
    replays it, to the same url, with the JSON body [{}]. *)
Theorem submitForm_background_copy_has_empty_body :
  forall (now now_sw : string) (net net_sw : nat -> Request -> Outcome)
         (url : string) (method : option string) (data : value)
         (formId : string) (successCallback : bool) (p : State) (sw : SW),
    offline p = true -> controller p = true ->
    let run := submitForm now net url method data formId successCallback p in
    let sw' := deliver now_sw (snd (fst run)) sw in
    (exists e,
       pending (fst (fst run)) = pending p ++ [e] /\
       q_url e = url /\ q_formId e = formId /\ q_data e = data) /\
    (exists r,
       In r (getQueue (idb sw')) /\
       s_id r = keygen (idb sw) /\
       s_url r = url /\ s_formId r = formId /\
       s_body r = VObj [] /\ s_attempts r = 0 /\
       In (replay_request r) (requests (snd (syncForms net_sw sw'))) /\
       rq_url (replay_request r) = url /\
       rq_body (replay_request r) = Some "{}").
Proof.
  intros now now_sw net net_sw url method data formId cb p sw Off C run sw'.
  set (fd := {| fd_url := url; fd_method := method; fd_headers := None;
                fd_body := VUndef; fd_data := data; fd_formId := formId;
                fd_timestamp := None; fd_attempts := None;
                fd_csrfToken := None |}).
  assert (R : run = (fst (queueForm now fd p),
                     snd (queueForm now fd p) ++
                       [Toast "Request queued for sync when online" "info"],
                     Returned (VObj [("success", VBool true);
                                     ("message", VStr "Request queued")]))).
  { unfold run, submitForm. rewrite Off. fold fd.
    now destruct (queueForm now fd p). }
  assert (D : sw' = deliver now_sw (snd (queueForm now fd p)) sw).
  { unfold sw'. rewrite R. cbn [fst snd]. unfold deliver, messages_of.
    rewrite omap_app. cbn. now rewrite app_nil_r. }
  split.
  - rewrite R. cbn [fst].
    destruct (queueForm_pending now fd p)
      as (e & He & Hu & _ & Hd & _ & Hf & _).
    exists e. repeat split; assumption.
  - destruct (deliver_queueForm now now_sw fd p sw C)
      as (fd' & Hd & Hu & _ & _ & Hb & Hf & _ & Ha & _).
    destruct (addToQueue_In now_sw fd' (idb sw))
      as (r & Hin & Hid & Hur & _ & Hbr & Hfr & _ & Har & _).
    rewrite Hb in Hbr. rewrite Ha in Har. simpl in Hbr, Har.
    exists r. rewrite D, Hd. cbn [idb].
    split; [exact Hin|]. split; [exact Hid|].
    split; [now rewrite Hur, Hu|]. split; [now rewrite Hfr, Hf|].
    split; [exact Hbr|]. split; [exact Har|].
    split.
    + rewrite syncForms_requests. apply in_map, filter_In.
      split; [exact Hin|]. unfold terminal. now rewrite Har.
    + unfold replay_request; simpl. rewrite Hbr. split; [now rewrite Hur, Hu|reflexivity].
Qed.

Lemma submitForm_background_copy_has_empty_body_witness :
  offline offline_page = true /\ controller offline_page = true /\
  exists r,
    In r (getQueue (idb (deliver "t1"
            (snd (fst (submitForm "t0" down "/api/addSale" (Some "POST")
                         (VObj [("amount", VNum 5)]) "saleForm" false
                         offline_page))) idle_sw))) /\
    s_body r = VObj [] /\
    rq_body (replay_request r) = Some "{}".
Proof.
  split; [reflexivity|]. split; [reflexivity|].
  destruct (submitForm_background_copy_has_empty_body
              "t0" "t1" down down "/api/addSale" (Some "POST")
              (VObj [("amount", VNum 5)]) "saleForm" false offline_page
              idle_sw eq_refl eq_refl)
    as [_ (r & Hin & _ & _ & _ & Hb & _ & _ & _ & Hrb)].
  exists r. repeat split; assumption.
Defined.

(** ** C9 *)




(** ** C10 *)



End Claims.

(* ===================================================================== *)
(** * Beyond the claims: the store, the two passes and the caches *)
(* ===================================================================== *)

Section StoreShape.
Import JS Wire IDB ServiceWorker Vocabulary Reference.

Lemma put_record_ids s rs k :
  In k (List.map s_id (put_record s rs)) ->
  k = s_id s \/ In k (List.map s_id rs).
Proof.
  induction rs as [|r rest IH]; simpl.
  - intuition congruence.
  - destruct (Z.eqb_spec (s_id r) (s_id s)); simpl; [intuition congruence|].
    destruct (s_id s <? s_id r); simpl; [intuition congruence|].
    intros [H|H]; [tauto|]. apply IH in H. tauto.
Qed.

Lemma sorted_lt_cons (k : Z) (ks : list Z) :
  StronglySorted Z.lt (k :: ks) <->
  (forall k', In k' ks -> k < k') /\ StronglySorted Z.lt ks.
Proof.
  split.
  - intros H. apply StronglySorted_inv in H as [S F]. split; [|exact S].
    intros k' Hk. rewrite List.Forall_forall in F. now apply F.
  - intros [F S]. constructor; [exact S|]. now apply List.Forall_forall.
Qed.

Lemma put_record_sorted s rs :
  StronglySorted Z.lt (List.map s_id rs) ->
  StronglySorted Z.lt (List.map s_id (put_record s rs)).
Proof.
  induction rs as [|r rest IH]; simpl; intros S.
  - repeat constructor.
  - apply sorted_lt_cons in S as [F S].
    destruct (Z.eqb_spec (s_id r) (s_id s)) as [E|NE]; simpl.
    + apply sorted_lt_cons. rewrite <- E. split; assumption.
    + destruct (Z.ltb_spec (s_id s) (s_id r)); simpl.
      * apply sorted_lt_cons. split.
        -- intros k' [<-|Hk]; [assumption|]. specialize (F k' Hk). lia.
        -- apply sorted_lt_cons. split; assumption.
      * apply sorted_lt_cons. split; [|now apply IH].
        intros k' Hk. apply put_record_ids in Hk as [->|Hk]; [lia|now apply F].
Qed.

Lemma filter_sorted (keep : Submission -> bool) rs :
  StronglySorted Z.lt (List.map s_id rs) ->
  StronglySorted Z.lt (List.map s_id (List.filter keep rs)).
Proof.
  induction rs as [|r rest IH]; simpl; intros S; [constructor|].
  apply sorted_lt_cons in S as [F S].
  destruct (keep r); simpl; [|now apply IH].
  apply sorted_lt_cons. split; [|now apply IH].
  intros k' Hk. apply F. apply in_map_iff in Hk as (x & <- & Hx).
  apply filter_In in Hx as [Hx _]. now apply in_map.
Qed.

Lemma sorted_lt_NoDup (ks : list Z) : StronglySorted Z.lt ks -> NoDup ks.
Proof.
  induction ks as [|k rest IH]; intros S; [constructor|].
  apply sorted_lt_cons in S as [F S]. apply NoDup_cons. split; [|now apply IH].
  intros H. apply list_elem_of_In, F in H. lia.
Qed.

Lemma store_ok_create : store_ok createObjectStore.
Proof. split; [constructor|apply createObjectStore_keys_below]. Qed.

Lemma store_ok_run_op op st : store_ok st -> store_ok (run_op op st).
Proof.
  intros [S K]. split; [|now apply run_op_keys_below].
  destruct op as [d|k|s]; simpl.
  - now apply put_record_sorted.
  - now apply filter_sorted.
  - now apply put_record_sorted.
Qed.

Lemma store_ok_addToQueue now fd st :
  store_ok st -> store_ok (addToQueue now fd st).
Proof. intros H. unfold addToQueue. exact (store_ok_run_op (OpAdd _) st H). Qed.

Lemma store_ok_removeFromQueue l st :
  store_ok st -> store_ok (removeFromQueue l st).
Proof.
  intros H. unfold removeFromQueue. destruct l as [|x l]; [exact H|].
  generalize (x :: l). clear x l. intros l. revert st H.
  induction l as [|y l IH]; intros st H; simpl; [exact H|].
  apply IH. exact (store_ok_run_op (OpDelete _) st H).
Qed.

Lemma store_ok_updateQueue l st :
  store_ok st -> store_ok (updateQueue l st).
Proof.
  intros H. unfold updateQueue. destruct l as [|x l]; [exact H|].
  generalize (x :: l). clear x l. intros l. revert st H.
  induction l as [|y l IH]; intros st H; simpl; [exact H|].
  apply IH. exact (store_ok_run_op (OpPut _) st H).
Qed.

(** Two key-sorted lists that hold the same record under every key are
    the same list. *)
Lemma sorted_records_ext (l1 l2 : list Submission) :
  StronglySorted Z.lt (List.map s_id l1) ->
  StronglySorted Z.lt (List.map s_id l2) ->
  (forall k, List.find (fun r => s_id r =? k) l1 =
             List.find (fun r => s_id r =? k) l2) ->
  l1 = l2.
Proof.
  revert l2. induction l1 as [|x1 r1 IH]; intros l2 S1 S2 E.
  - destruct l2 as [|x2 r2]; [reflexivity|].
    specialize (E (s_id x2)). simpl in E. now rewrite Z.eqb_refl in E.
  - destruct l2 as [|x2 r2].
    + specialize (E (s_id x1)). simpl in E. now rewrite Z.eqb_refl in E.
    + simpl in S1, S2.
      apply sorted_lt_cons in S1 as [F1 S1].
      apply sorted_lt_cons in S2 as [F2 S2].
      assert (Hx : x1 = x2).
      { pose proof (E (s_id x1)) as E1. pose proof (E (s_id x2)) as E2.
        simpl in E1, E2. rewrite Z.eqb_refl in E1, E2.
        destruct (Z.eqb_spec (s_id x2) (s_id x1)) as [_|NE];
          [congruence|].
        destruct (Z.eqb_spec (s_id x1) (s_id x2)) as [e|_]; [lia|].
        symmetry in E1. apply find_some in E1 as [In1 Eq1].
        apply find_some in E2 as [In2 Eq2].
        apply Z.eqb_eq in Eq1, Eq2.
        pose proof (F2 _ (in_map s_id _ _ In1)).
        pose proof (F1 _ (in_map s_id _ _ In2)). lia. }
      subst x2. f_equal. apply IH; try assumption.
      intros k. specialize (E k). simpl in E.
      destruct (Z.eqb_spec (s_id x1) k) as [e|NE]; [|exact E].
      subst k. rewrite !find_absent; [reflexivity| |].
      * intros H. apply F2 in H. lia.
      * intros H. apply F1 in H. lia.
Qed.

End StoreShape.

Section Sweep.
Import JS Wire IDB ServiceWorker Vocabulary Reference.

Variable net : nat -> Request -> Outcome.

Lemma loop_failed_sweep queue acc :
  failedSubmissions (fold_left (loop_body net) queue acc) =
  failedSubmissions acc ++ sweep net (length (issued acc)) queue.
Proof.
  revert acc. induction queue as [|s rest IH]; intros acc; simpl.
  - now rewrite app_nil_r.
  - rewrite IH. unfold loop_body, terminal.
    destruct (3 <=? s_attempts s); simpl.
    + now rewrite <- app_assoc.
    + destruct (net _ _) as [|[] ?]; simpl;
        rewrite ?length_app, ?Nat.add_1_r, <- ?app_assoc; reflexivity.
Qed.

Lemma sweep_ids calls queue k :
  In k (List.map s_id (sweep net calls queue)) -> In k (List.map s_id queue).
Proof.
  revert calls. induction queue as [|s rest IH]; intros calls; simpl; [tauto|].
  destruct (terminal s); simpl.
  - intros [H|H]; [now left|right; eapply IH, H].
  - destruct (net _ _) as [|[] ?]; simpl.
    + intros [H|H]; [now left|right; eapply IH, H].
    + intros H. right. eapply IH, H.
    + intros [H|H]; [now left|right; eapply IH, H].
Qed.

Lemma sweep_sorted calls queue :
  StronglySorted Z.lt (List.map s_id queue) ->
  StronglySorted Z.lt (List.map s_id (sweep net calls queue)).
Proof.
  revert calls. induction queue as [|s rest IH]; intros calls S; simpl;
    [constructor|].
  simpl in S. apply sorted_lt_cons in S as [F S].
  assert (Hd : forall n k', In k' (List.map s_id (sweep net n rest)) ->
                            s_id s < k').
  { intros n k' Hk. eapply F, sweep_ids, Hk. }
  destruct (terminal s); simpl.
  - apply sorted_lt_cons. split; [apply Hd|now apply IH].
  - destruct (net _ _) as [|[] ?]; simpl.
    + apply sorted_lt_cons. split; [apply Hd|now apply IH].
    + now apply IH.
    + apply sorted_lt_cons. split; [apply Hd|now apply IH].
Qed.

Lemma keygen_removeFromQueue l st : keygen (removeFromQueue l st) = keygen st.
Proof.
  unfold removeFromQueue. destruct l as [|x l]; [reflexivity|].
  generalize (x :: l). clear. intros l. revert st.
  induction l as [|y l IH]; intros st; simpl; [reflexivity|].
  now rewrite IH.
Qed.

Lemma keygen_updateQueue l st :
  (forall x, In x l -> s_id x < keygen st) ->
  keygen (updateQueue l st) = keygen st.
Proof.
  intros H. unfold updateQueue. destruct l as [|x l]; [reflexivity|].
  revert H. generalize (x :: l). clear. intros l. revert st.
  induction l as [|y l IH]; intros st H; simpl; [reflexivity|].
  rewrite IH.
  - simpl. pose proof (H y (or_introl eq_refl)). lia.
  - intros z Hz. simpl. pose proof (H z (or_intror Hz)). lia.
Qed.

Lemma store_eta (st : ObjectStore) :
  st = {| records := records st; keygen := keygen st |}.
Proof. now destruct st. Qed.

(** On a store of the reachable shape, a pass of [syncForms] leaves
    exactly what [sweep] computes, in the same order, and does not move
    the key generator. *)
Lemma syncForms_sweep sw :
  store_ok (idb sw) ->
  fst (syncForms net sw) =
  {| idb := {| records := sweep net 0 (getQueue (idb sw));
               keygen := keygen (idb sw) |};
     clients := clients sw |}.
Proof.
  intros OK. pose proof OK as [S K]. unfold syncForms.
  destruct (getQueue (idb sw)) as [|q0 qs] eqn:Q.
  - simpl. destruct sw as [[rs kg] cl]. unfold getQueue, getAll in Q.
    simpl in *. now subst rs.
  - rewrite <- Q. clear Q q0 qs. cbn zeta. cbn [fst].
    set (queue := getQueue (idb sw)).
    set (l := fold_left (loop_body net) queue (mkLoop [] [] [])).
    pose proof (loop_failed_sweep queue (mkLoop [] [] [])) as Hf.
    fold l in Hf. simpl in Hf.
    pose proof (loop_ids net queue (mkLoop [] [] [])) as P.
    fold l in P. simpl in P.
    set (st1 := removeFromQueue (successfulSubmissions l) (idb sw)).
    set (st2 := updateQueue (failedSubmissions l) st1).
    assert (OK2 : store_ok st2).
    { apply store_ok_updateQueue, store_ok_removeFromQueue, OK. }
    assert (Sf : StronglySorted Z.lt (List.map s_id (failedSubmissions l))).
    { rewrite Hf. now apply sweep_sorted. }
    assert (Below : forall x, In x (failedSubmissions l) -> s_id x < keygen st1).
    { intros x Hx. unfold st1. rewrite keygen_removeFromQueue.
      rewrite Hf in Hx. apply (in_map s_id) in Hx. apply sweep_ids in Hx.
      apply in_map_iff in Hx as (r & <- & Hr).
      unfold keys_below in K. rewrite Forall_forall in K.
      apply K, list_elem_of_In, Hr. }
    f_equal. rewrite (store_eta st2). f_equal.
    + rewrite <- Hf. apply sorted_records_ext.
      * apply OK2.
      * exact Sf.
      * intros k. change (List.find (fun r => s_id r =? k) (records st2))
          with (record_at k st2).
        unfold st2. rewrite record_at_updateQueue by now apply sorted_lt_NoDup.
        destruct (List.find (fun x => s_id x =? k) (failedSubmissions l))
          as [x|] eqn:Ff; [reflexivity|].
        unfold st1. rewrite record_at_removeFromQueue.
        destruct (existsb (fun x => s_id x =? k) (successfulSubmissions l))
          eqn:Ex; [reflexivity|].
        destruct (record_at k (idb sw)) as [r|] eqn:R; [|reflexivity].
        exfalso. apply find_some in R as [Hr Hk]. apply Z.eqb_eq in Hk.
        assert (Hq : In k (List.map s_id queue)).
        { rewrite <- Hk. now apply in_map. }
        apply (Permutation_in _ (Permutation_sym P)) in Hq.
        rewrite map_app in Hq. apply in_app_or in Hq as [Hs|Hfl].
        -- apply in_map_iff in Hs as (y & Hy & Hin).
           assert (existsb (fun x => s_id x =? k) (successfulSubmissions l) = true).
           { apply existsb_exists. exists y. split; [exact Hin|]. now apply Z.eqb_eq. }
           congruence.
        -- apply in_map_iff in Hfl as (y & Hy & Hin).
           eapply find_none in Ff; [|exact Hin]. simpl in Ff. lia.
    + unfold st2. rewrite keygen_updateQueue by exact Below.
      unfold st1. apply keygen_removeFromQueue.
Qed.

Lemma store_ok_syncForms sw :
  store_ok (idb sw) -> store_ok (idb (fst (syncForms net sw))).
Proof.
  intros OK. unfold syncForms.
  destruct (getQueue (idb sw)); [exact OK|]. cbn [fst idb].
  apply store_ok_updateQueue, store_ok_removeFromQueue, OK.
Qed.

End Sweep.

Section BackgroundFacts.
Import JS Wire IDB ServiceWorker Vocabulary Reference Lifecycle.

Lemma put_record_In_inv s rs r :
  In r (put_record s rs) -> r = s \/ In r rs.
Proof.
  induction rs as [|x rest IH]; simpl.
  - intuition congruence.
  - destruct (s_id x =? s_id s); simpl; [intuition congruence|].
    destruct (s_id s <? s_id x); simpl; [intuition congruence|].
    intros [H|H]; [tauto|]. apply IH in H. tauto.
Qed.

Lemma removeFromQueue_In l st r :
  In r (records (removeFromQueue l st)) -> In r (records st).
Proof.
  unfold removeFromQueue. destruct l as [|x l]; [tauto|].
  generalize (x :: l). clear. intros l. revert st.
  induction l as [|y l IH]; intros st; simpl; [tauto|].
  intros H. apply IH in H. simpl in H. now apply filter_In in H.
Qed.

Lemma updateQueue_In l st r :
  In r (records (updateQueue l st)) -> In r l \/ In r (records st).
Proof.
  unfold updateQueue. destruct l as [|x l]; [tauto|].
  generalize (x :: l). clear. intros l. revert st.
  induction l as [|y l IH]; intros st; simpl; [tauto|].
  intros H. apply IH in H as [H|H]; [tauto|].
  simpl in H. apply put_record_In_inv in H. intuition congruence.
Qed.

Lemma sweep_In net calls queue r :
  In r (sweep net calls queue) ->
  exists s, In s queue /\
            (r = s \/ (terminal s = false /\ r = bump s)).
Proof.
  revert calls. induction queue as [|s rest IH]; intros calls; simpl; [tauto|].
  destruct (terminal s) eqn:T.
  - intros [<-|H]; [exists s; tauto|].
    apply IH in H as (s' & Hs & Hr). exists s'. tauto.
  - destruct (net _ _) as [|[] ?].
    + intros [<-|H]; [exists s; tauto|].
      apply IH in H as (s' & Hs & Hr). exists s'. tauto.
    + intros H. apply IH in H as (s' & Hs & Hr). exists s'. tauto.
    + intros [<-|H]; [exists s; tauto|].
      apply IH in H as (s' & Hs & Hr). exists s'. tauto.
Qed.

(** Where a record of the store after a pass comes from. *)
Lemma syncForms_In net sw r :
  In r (getQueue (idb (fst (syncForms net sw)))) ->
  exists s, In s (getQueue (idb sw)) /\
            (r = s \/ (terminal s = false /\ r = bump s)).
Proof.
  unfold syncForms. destruct (getQueue (idb sw)) as [|q0 qs] eqn:Q.
  - simpl. rewrite Q. intros [].
  - rewrite <- Q. clear Q q0 qs. cbn [fst idb]. intros H.
    apply updateQueue_In in H as [H|H].
    + rewrite loop_failed_sweep in H. simpl in H. now apply sweep_In in H.
    + apply removeFromQueue_In in H. exists r. tauto.
Qed.

Lemma sweep_never_ok net calls queue :
  never_ok net -> sweep net calls queue = List.map retried queue.
Proof.
  intros Hn. revert calls. induction queue as [|s rest IH]; intros calls;
    simpl; [reflexivity|].
  unfold retried at 1. destruct (terminal s); [now rewrite IH|].
  destruct (net calls (replay_request s)) as [|[] json] eqn:E;
    try now rewrite IH.
  exfalso. exact (Hn _ _ _ E).
Qed.

Lemma sweep_all_terminal net calls queue :
  Forall (fun s => terminal s = true) queue -> sweep net calls queue = queue.
Proof.
  induction 1 as [|s rest Hs _ IH]; simpl; [reflexivity|].
  now rewrite Hs, IH.
Qed.

Lemma filter_all_live (queue : list Submission) :
  Forall (fun s => terminal s = false) queue ->
  List.filter (fun s => negb (terminal s)) queue = queue.
Proof.
  induction 1 as [|s rest Hs _ IH]; simpl; [reflexivity|].
  now rewrite Hs, IH.
Qed.

Lemma keygen_dispatch ev sw :
  keygen (idb sw) <= keygen (idb (fst (dispatch ev sw))).
Proof.
  destruct ev as [now [fd|t]|net tag]; simpl; try lia.
  unfold on_sync. destruct (String.eqb tag _); [|simpl; lia].
  unfold syncForms. destruct (getQueue (idb sw)); [simpl; lia|].
  cbn [fst idb].
  assert (G : forall l st, keygen st <= keygen (updateQueue l st)).
  { clear. intros l st. unfold updateQueue. destruct l as [|x l]; [lia|].
    generalize (x :: l). clear. intros l. revert st.
    induction l as [|y l IH]; intros st; simpl; [lia|].
    specialize (IH (put y st)). simpl in IH. lia. }
  etransitivity; [|apply G]. rewrite keygen_removeFromQueue. lia.
Qed.

Lemma keygen_run_events evs sw :
  keygen (idb sw) <= keygen (idb (run_events evs sw)).
Proof.
  revert sw. induction evs as [|ev rest IH]; intros sw; simpl; [lia|].
  pose proof (keygen_dispatch ev sw).
  specialize (IH (fst (dispatch ev sw))). unfold run_events in *. lia.
Qed.

Lemma store_ok_dispatch ev sw :
  store_ok (idb sw) -> store_ok (idb (fst (dispatch ev sw))).
Proof.
  intros OK. destruct ev as [now [fd|t]|net tag]; simpl.
  - now apply store_ok_addToQueue.
  - exact OK.
  - unfold on_sync. destruct (String.eqb tag _); [|exact OK].
    now apply store_ok_syncForms.
Qed.

Lemma store_ok_run_events evs sw :
  store_ok (idb sw) -> store_ok (idb (run_events evs sw)).
Proof.
  revert sw. induction evs as [|ev rest IH]; intros sw OK; simpl; [exact OK|].
  apply IH, store_ok_dispatch, OK.
Qed.

End BackgroundFacts.

Section BackgroundExtras.
Import JS Wire IDB ServiceWorker Vocabulary Reference Lifecycle Examples.

(** X1: the network calls of a pass of [syncForms] are exactly the
    replay requests of the records with [attempts < 3], one each, in
    store order; a record with three or more attempts gets none. *)
Theorem background_pass_calls_each_live_record_once :
  forall (net : nat -> Request -> Outcome) (sw : SW),
    requests (snd (syncForms net sw)) =
    List.map replay_request
      (List.filter (fun s => s_attempts s <? 3) (getQueue (idb sw))).
Proof.
  intros net sw. rewrite syncForms_requests. f_equal.
  apply filter_ext. intros s. unfold terminal.
  destruct (Z.leb_spec 3 (s_attempts s)), (Z.ltb_spec (s_attempts s) 3);
    try reflexivity; lia.
Qed.

(** X2: on a store whose keys are in ascending order and below the key
    generator, a pass of [syncForms] leaves exactly the records [sweep]
    computes, in the same order: terminal records as they were, failed
    replays with [attempts] raised, delivered ones gone.  The key
    generator and the clients are untouched and the store keeps its
    shape. *)
Theorem background_pass_is_a_sweep :
  forall (net : nat -> Request -> Outcome) (sw : SW),
    store_ok (idb sw) ->
    getQueue (idb (fst (syncForms net sw))) =
      sweep net 0 (getQueue (idb sw)) /\
    keygen (idb (fst (syncForms net sw))) = keygen (idb sw) /\
    clients (fst (syncForms net sw)) = clients sw /\
    store_ok (idb (fst (syncForms net sw))).
Proof.
  intros net sw OK. split; [|split; [|split]].
  - now rewrite syncForms_sweep.
  - now rewrite syncForms_sweep.
  - now rewrite syncForms_sweep.
  - now apply store_ok_syncForms.
Qed.

Lemma background_pass_is_a_sweep_witness :
  store_ok (idb two_queued_sw) /\
  List.map (fun r => (s_id r, s_attempts r))
    (getQueue (idb (fst (syncForms sales_up two_queued_sw)))) = [(2, 1)] /\
  keygen (idb (fst (syncForms sales_up two_queued_sw))) = 3.
Proof.
  assert (OK : store_ok (idb two_queued_sw)).
  { split; repeat constructor; simpl; lia. }
  split; [exact OK|].
  destruct (background_pass_is_a_sweep sales_up two_queued_sw OK)
    as (Hq & Hk & _).
  rewrite Hq, Hk. split; reflexivity.
Defined.

(** X3: a pass of [syncForms] that found records sends every window
    client one [forms-synced] message; its [failed] is the number of
    records left in the store by the pass, terminal ones included, and
    its [count] the number of the others. *)
Theorem background_pass_summary :
  forall (net : nat -> Request -> Outcome) (sw : SW),
    getQueue (idb sw) <> [] ->
    let kept := sweep net 0 (getQueue (idb sw)) in
    (length kept <= length (getQueue (idb sw)))%nat /\
    broadcasts (snd (syncForms net sw)) =
    List.map
      (fun client =>
         (client,
          FormsSynced (length (getQueue (idb sw)) - length kept) (length kept)))
      (clients sw).
Proof.
  intros net sw NE. cbn zeta. unfold syncForms.
  destruct (getQueue (idb sw)) as [|q0 qs] eqn:Q; [congruence|].
  rewrite <- Q in *. clear Q NE q0 qs. cbn [snd broadcasts].
  set (kept := sweep net 0 (getQueue (idb sw))).
  set (l := fold_left (loop_body net) (getQueue (idb sw)) (mkLoop [] [] [])).
  pose proof (loop_failed_sweep net (getQueue (idb sw)) (mkLoop [] [] [])) as Hf.
  fold l in Hf. simpl in Hf. fold kept in Hf.
  pose proof (loop_ids net (getQueue (idb sw)) (mkLoop [] [] [])) as P.
  fold l in P. simpl in P. apply Permutation_length in P.
  rewrite !length_map, length_app, Hf in P.
  split; [lia|]. rewrite Hf.
  replace (length (getQueue (idb sw)) - length kept)%nat
    with (length (successfulSubmissions l)) by lia.
  reflexivity.
Qed.

Lemma background_pass_summary_witness :
  getQueue (idb two_queued_sw) <> [] /\
  broadcasts (snd (syncForms sales_up two_queued_sw)) =
    [("window-1", FormsSynced 1 1)].
Proof.
  assert (NE : getQueue (idb two_queued_sw) <> []) by discriminate.
  split; [exact NE|].
  destruct (background_pass_summary sales_up two_queued_sw NE) as [_ H].
  rewrite H. reflexivity.
Defined.

(** X4: one pass of [syncForms] over a store with distinct keys, seen
    from a record of the queue: with three or more attempts it is still
    there, unchanged; with fewer it is gone, or there with [attempts]
    one higher and the same [url] and [body]. *)
Theorem background_pass_outcome_per_record :
  forall (net : nat -> Request -> Outcome) (sw : SW) (s : Submission),
    NoDup (List.map s_id (getQueue (idb sw))) ->
    In s (getQueue (idb sw)) ->
    let after := idb (fst (syncForms net sw)) in
    (3 <= s_attempts s /\ record_at (s_id s) after = Some s) \/
    (s_attempts s < 3 /\
     (record_at (s_id s) after = None \/
      exists s', record_at (s_id s) after = Some s' /\
                 s_attempts s' = s_attempts s + 1 /\
                 s_url s' = s_url s /\ s_body s' = s_body s)).
Proof.
  intros net sw s ND Hs after.
  destruct (syncForms_record_at net sw s ND Hs) as [[T H]|[T [H|H]]];
    unfold terminal in T.
  - left. split; [|exact H]. destruct (Z.leb_spec 3 (s_attempts s)); [lia|discriminate].
  - right. split; [|now left]. destruct (Z.leb_spec 3 (s_attempts s)); [discriminate|lia].
  - right. split; [destruct (Z.leb_spec 3 (s_attempts s)); [discriminate|lia]|].
    right. exists (bump s). split; [exact H|]. split; [apply bump_attempts|].
    split; reflexivity.
Qed.

Lemma background_pass_outcome_per_record_witness :
  NoDup (List.map s_id (getQueue (idb queued_sw))) /\
  In sale_record (getQueue (idb queued_sw)) /\
  exists s', record_at 1 (idb (fst (syncForms down queued_sw))) = Some s' /\
             s_attempts s' = 1.
Proof.
  assert (ND : NoDup (List.map s_id (getQueue (idb queued_sw)))).
  { apply NoDup_cons. split; [intros H; inversion H|constructor]. }
  assert (Hin : In sale_record (getQueue (idb queued_sw))) by (now left).
  split; [exact ND|]. split; [exact Hin|].
  destruct (background_pass_outcome_per_record down queued_sw sale_record ND Hin)
    as [[H _]|[_ [H|(s' & H & Ha & _)]]].
  - simpl in H. lia.
  - discriminate H.
  - exists s'. split; [exact H|exact Ha].
Defined.

(** X5: a pass of [syncForms] invents no record and rewrites nothing
    but [attempts]: every record in the store after the pass has the
    [id], [url], [method], [headers], [body], [formId], [timestamp] and
    [csrfToken] of a record that was there before, and its [attempts] is
    that record's or, if that was below 3, one more. *)
Theorem background_pass_changes_only_attempts :
  forall (net : nat -> Request -> Outcome) (sw : SW) (r : Submission),
    In r (getQueue (idb (fst (syncForms net sw)))) ->
    exists s,
      In s (getQueue (idb sw)) /\
      s_id r = s_id s /\ s_url r = s_url s /\ s_method r = s_method s /\
      s_headers r = s_headers s /\ s_body r = s_body s /\
      s_formId r = s_formId s /\ s_timestamp r = s_timestamp s /\
      s_csrfToken r = s_csrfToken s /\
      (s_attempts r = s_attempts s \/
       (s_attempts s < 3 /\ s_attempts r = s_attempts s + 1)).
Proof.
  intros net sw r Hr. apply syncForms_In in Hr as (s & Hs & [->|[T ->]]).
  - exists s. repeat split; try assumption. now left.
  - exists s. repeat split; try assumption. right.
    split; [|apply bump_attempts]. unfold terminal in T.
    destruct (Z.leb_spec 3 (s_attempts s)); [discriminate|lia].
Qed.

Lemma background_pass_changes_only_attempts_witness :
  exists r,
    In r (getQueue (idb (fst (syncForms down queued_sw)))) /\
    exists s,
      In s (getQueue (idb queued_sw)) /\ s_id r = s_id s /\
      s_timestamp r = s_timestamp s /\ s_attempts r = s_attempts s + 1.
Proof.
  exists (bump sale_record).
  assert (Hin : In (bump sale_record)
                   (getQueue (idb (fst (syncForms down queued_sw)))))
    by (now left).
  split; [exact Hin|].
  destruct (background_pass_changes_only_attempts down queued_sw _ Hin)
    as (s & Hs & Hi & _ & _ & _ & _ & _ & Ht & _ & Ha).
  exists s. repeat split; try assumption.
  destruct Ha as [Ha|[_ Ha]]; [|exact Ha].
  destruct Hs as [<-|[]]. discriminate Ha.
Defined.

End BackgroundExtras.

Section BackgroundExtras2.
Import JS Wire IDB ServiceWorker Vocabulary Reference Lifecycle Examples.

(** X6: whatever messages and sync events a service worker handles,
    starting from a freshly created database, [getAll] lists the records
    in strictly ascending order of [id], so no two share an [id], and
    every [id] is below the key generator's number. *)
Theorem service_worker_store_shape :
  forall (evs : list Event) (windows : list string),
    let st := idb (run_events evs (installed windows)) in
    StronglySorted Z.lt (List.map s_id (getQueue st)) /\
    NoDup (List.map s_id (getQueue st)) /\
    Forall (fun r => s_id r < keygen st) (getQueue st).
Proof.
  intros evs windows st.
  assert (OK : store_ok st).
  { apply store_ok_run_events. exact store_ok_create. }
  destruct OK as [S K]. split; [exact S|]. split; [|exact K].
  now apply sorted_lt_NoDup.
Qed.

Lemma attempts_dispatch ev sw :
  modest ev ->
  (forall r, In r (getQueue (idb sw)) -> 0 <= s_attempts r <= 3) ->
  forall r, In r (getQueue (idb (fst (dispatch ev sw)))) ->
            0 <= s_attempts r <= 3.
Proof.
  intros M H r. destruct ev as [now [fd|t]|net tag]; simpl.
  - unfold addToQueue, getQueue, getAll, add. simpl. intros Hr.
    apply put_record_In_inv in Hr as [->|Hr]; [|now apply H].
    simpl. simpl in M. destruct (fd_attempts fd) as [a|]; simpl; [|lia].
    destruct (Z.eqb_spec a 0); lia.
  - apply H.
  - unfold on_sync. destruct (String.eqb tag _); [|apply H].
    intros Hr. apply syncForms_In in Hr as (s & Hs & [->|[T ->]]).
    + now apply H.
    + rewrite bump_attempts. specialize (H s Hs). unfold terminal in T.
      destruct (Z.leb_spec 3 (s_attempts s)); [discriminate|lia].
Qed.

(** X7: if no [queue-form] message brings an [attempts] outside 0..3,
    then after any sequence of messages and sync events every stored
    record has [attempts] between 0 and 3. *)
Theorem service_worker_attempts_bounded :
  forall (evs : list Event) (windows : list string) (r : Submission),
    Forall modest evs ->
    In r (getQueue (idb (run_events evs (installed windows)))) ->
    0 <= s_attempts r <= 3.
Proof.
  intros evs windows r M.
  assert (G : forall sw,
            (forall x, In x (getQueue (idb sw)) -> 0 <= s_attempts x <= 3) ->
            forall x, In x (getQueue (idb (run_events evs sw))) ->
                      0 <= s_attempts x <= 3).
  { induction M as [|ev rest Hev _ IH]; intros sw H; simpl; [exact H|].
    apply IH. now apply attempts_dispatch. }
  apply G. intros x [].
Qed.

Lemma service_worker_attempts_bounded_witness :
  Forall modest
    [Message "t0" (QueueForm saleForm); Sync down "sync-form-submissions";
     Sync down "sync-form-submissions"; Sync down "sync-form-submissions";
     Sync down "sync-form-submissions"] /\
  exists r,
    In r (getQueue (idb (run_events
            [Message "t0" (QueueForm saleForm);
             Sync down "sync-form-submissions";
             Sync down "sync-form-submissions";
             Sync down "sync-form-submissions";
             Sync down "sync-form-submissions"] (installed ["window-1"])))) /\
    0 <= s_attempts r <= 3.
Proof.
  assert (M : Forall modest
    [Message "t0" (QueueForm saleForm); Sync down "sync-form-submissions";
     Sync down "sync-form-submissions"; Sync down "sync-form-submissions";
     Sync down "sync-form-submissions"]).
  { repeat constructor. }
  split; [exact M|].
  exists (bump (bump (bump sale_record))).
  assert (Hin : In (bump (bump (bump sale_record)))
            (getQueue (idb (run_events
               [Message "t0" (QueueForm saleForm);
                Sync down "sync-form-submissions";
                Sync down "sync-form-submissions";
                Sync down "sync-form-submissions";
                Sync down "sync-form-submissions"] (installed ["window-1"])))))
    by (now left).
  split; [exact Hin|].
  exact (service_worker_attempts_bounded _ _ _ M Hin).
Defined.

(** X8: the retry budget of the background pass.  Records that start
    with [attempts = 0] and a network that never answers [ok]: each of
    the first three passes calls the network once per record; after the
    third every record has [attempts = 3]; a fourth pass, on any network,
    makes no call and leaves the service worker exactly as it was. *)
Theorem background_retry_budget :
  forall (net1 net2 net3 net4 : nat -> Request -> Outcome) (sw : SW),
    store_ok (idb sw) ->
    Forall (fun s => s_attempts s = 0) (getQueue (idb sw)) ->
    never_ok net1 -> never_ok net2 -> never_ok net3 ->
    let pass1 := syncForms net1 sw in
    let pass2 := syncForms net2 (fst pass1) in
    let pass3 := syncForms net3 (fst pass2) in
    let pass4 := syncForms net4 (fst pass3) in
    length (requests (snd pass1)) = length (getQueue (idb sw)) /\
    length (requests (snd pass2)) = length (getQueue (idb sw)) /\
    length (requests (snd pass3)) = length (getQueue (idb sw)) /\
    getQueue (idb (fst pass3)) =
      List.map (fun s => bump (bump (bump s))) (getQueue (idb sw)) /\
    Forall (fun s => s_attempts s = 3) (getQueue (idb (fst pass3))) /\
    requests (snd pass4) = [] /\
    fst pass4 = fst pass3.
Proof.
  intros net1 net2 net3 net4 sw OK Fresh N1 N2 N3 pass1 pass2 pass3 pass4.
  set (q0 := getQueue (idb sw)) in *.
  assert (OK1 : store_ok (idb (fst pass1))) by now apply store_ok_syncForms.
  assert (OK2 : store_ok (idb (fst pass2))) by now apply store_ok_syncForms.
  assert (OK3 : store_ok (idb (fst pass3))) by now apply store_ok_syncForms.
  assert (Live : forall (f : Submission -> Submission) a,
            (forall s, s_attempts (f s) = s_attempts s + a) -> a < 3 -> 0 <= a ->
            Forall (fun s => terminal s = false) (List.map f q0)).
  { intros f a Hf Ha Ha0. apply Forall_forall. intros x Hx.
    apply list_elem_of_In, in_map_iff in Hx as (s & <- & Hs).
    rewrite Forall_forall in Fresh. apply list_elem_of_In, Fresh in Hs.
    unfold terminal. rewrite Hf, Hs.
    destruct (Z.leb_spec 3 (0 + a)); [lia|reflexivity]. }
  assert (Step : forall (l : list Submission),
            Forall (fun s => terminal s = false) l ->
            List.map retried l = List.map bump l).
  { intros l Hl. apply map_ext_in. intros s Hs.
    rewrite Forall_forall in Hl. apply list_elem_of_In, Hl in Hs.
    unfold retried. now rewrite Hs. }
  assert (L0 : Forall (fun s => terminal s = false) q0).
  { specialize (Live (fun s => s) 0). rewrite map_id in Live.
    apply Live; [intros; lia|lia|lia]. }
  assert (Q1 : getQueue (idb (fst pass1)) = List.map bump q0).
  { unfold pass1. rewrite syncForms_sweep by exact OK. cbn [idb getQueue getAll records].
    fold q0. rewrite sweep_never_ok by exact N1. now apply Step. }
  assert (L1 : Forall (fun s => terminal s = false) (List.map bump q0)).
  { apply (Live bump 1); [apply bump_attempts|lia|lia]. }
  assert (Q2 : getQueue (idb (fst pass2)) = List.map (fun s => bump (bump s)) q0).
  { unfold pass2. rewrite syncForms_sweep by exact OK1.
    cbn [idb getQueue getAll records].
    change (records (idb (fst pass1))) with (getQueue (idb (fst pass1))).
    rewrite Q1, sweep_never_ok by exact N2. rewrite Step by exact L1.
    now rewrite map_map. }
  assert (L2 : Forall (fun s => terminal s = false)
                 (List.map (fun s => bump (bump s)) q0)).
  { apply (Live (fun s => bump (bump s)) 2); [|lia|lia].
    intros s. rewrite !bump_attempts. lia. }
  assert (Q3 : getQueue (idb (fst pass3)) =
               List.map (fun s => bump (bump (bump s))) q0).
  { unfold pass3. rewrite syncForms_sweep by exact OK2.
    cbn [idb getQueue getAll records].
    change (records (idb (fst pass2))) with (getQueue (idb (fst pass2))).
    rewrite Q2, sweep_never_ok by exact N3. rewrite Step by exact L2.
    now rewrite map_map. }
  assert (A3 : Forall (fun s => s_attempts s = 3) (getQueue (idb (fst pass3)))).
  { rewrite Q3. apply Forall_forall. intros x Hx.
    apply list_elem_of_In, in_map_iff in Hx as (s & <- & Hs).
    rewrite Forall_forall in Fresh. apply list_elem_of_In, Fresh in Hs.
    rewrite !bump_attempts. lia. }
  assert (T3 : Forall (fun s => terminal s = true) (getQueue (idb (fst pass3)))).
  { eapply Forall_impl; [exact A3|]. intros s Hs. unfold terminal. simpl in Hs.
    now rewrite Hs. }
  split; [|split; [|split; [|split; [|split; [|split]]]]].
  - unfold pass1. rewrite syncForms_requests. fold q0.
    now rewrite filter_all_live, length_map.
  - unfold pass2. rewrite syncForms_requests, Q1.
    now rewrite filter_all_live, !length_map.
  - unfold pass3. rewrite syncForms_requests, Q2.
    now rewrite filter_all_live, !length_map.
  - exact Q3.
  - exact A3.
  - unfold pass4. rewrite syncForms_requests.
    destruct (getQueue (idb (fst pass3))) as [|x l]; [reflexivity|].
    replace (List.filter (fun s => negb (terminal s)) (x :: l)) with (@nil Submission);
      [reflexivity|].
    symmetry. clear -T3. induction T3 as [|y l' Hy _ IH]; simpl; [reflexivity|].
    now rewrite Hy.
  - unfold pass4. rewrite syncForms_sweep by exact OK3.
    rewrite sweep_all_terminal by exact T3.
    destruct (fst pass3) as [[rs kg] cl]. reflexivity.
Qed.

Lemma background_retry_budget_witness :
  store_ok (idb two_queued_sw) /\
  Forall (fun s => s_attempts s = 0) (getQueue (idb two_queued_sw)) /\
  never_ok down /\
  List.map s_attempts
    (getQueue (idb (fst (syncForms down
       (fst (syncForms down (fst (syncForms down two_queued_sw)))))))) = [3; 3] /\
  requests (snd (syncForms sales_up
     (fst (syncForms down
        (fst (syncForms down (fst (syncForms down two_queued_sw)))))))) = [].
Proof.
  assert (OK : store_ok (idb two_queued_sw)).
  { split; repeat constructor; simpl; lia. }
  assert (Fresh : Forall (fun s => s_attempts s = 0) (getQueue (idb two_queued_sw))).
  { repeat constructor. }
  assert (N : never_ok down).
  { intros calls rq json. discriminate. }
  split; [exact OK|]. split; [exact Fresh|]. split; [exact N|].
  destruct (background_retry_budget down down down sales_up two_queued_sw
              OK Fresh N N N) as (_ & _ & _ & Hq & _ & Hr & _).
  split; [|exact Hr]. rewrite Hq. reflexivity.
Defined.

End BackgroundExtras2.

Section BackgroundExtras3.
Import JS Wire IDB ServiceWorker Vocabulary Reference Lifecycle Examples.

(** X9: [removeFromQueue] deletes by [id] alone: what is left is every
    record whose [id] is the [id] of none of the submissions given,
    whatever their other fields; an [id] that is not in the store is
    skipped, and the key generator does not move. *)
Theorem removeFromQueue_deletes_by_id :
  forall (submissions : list Submission) (st : ObjectStore),
    getQueue (removeFromQueue submissions st) =
      List.filter
        (fun r => negb (existsb (fun x => s_id x =? s_id r) submissions))
        (getQueue st) /\
    keygen (removeFromQueue submissions st) = keygen st.
Proof.
  intros l st. split; [|apply keygen_removeFromQueue].
  unfold getQueue, getAll.
  assert (G : forall l st,
            records (fold_left (fun acc x => delete (s_id x) acc) l st) =
            List.filter (fun r => negb (existsb (fun x => s_id x =? s_id r) l))
              (records st)).
  { clear. induction l as [|x l IH]; intros st; simpl.
    - symmetry. apply forallb_filter_id. now apply forallb_forall.
    - rewrite IH. simpl. clear IH.
      induction (records st) as [|r rs IHr]; simpl; [reflexivity|].
      rewrite (Z.eqb_sym (s_id x) (s_id r)).
      destruct (s_id r =? s_id x); simpl; [exact IHr|].
      destruct (existsb _ l); simpl; [exact IHr|now rewrite IHr]. }
  unfold removeFromQueue. destruct l as [|x l]; [|apply G].
  simpl. symmetry. apply forallb_filter_id. now apply forallb_forall.
Qed.

(** X10: [updateQueue] overwrites by [id]: given submissions with
    distinct ids, the store afterwards holds under each of their ids
    the submission given, and under every other key what it held. *)
Theorem updateQueue_overwrites_by_id :
  forall (submissions : list Submission) (st : ObjectStore) (k : Z),
    NoDup (List.map s_id submissions) ->
    record_at k (updateQueue submissions st) =
    match List.find (fun x => s_id x =? k) submissions with
    | Some x => Some x
    | None => record_at k st
    end.
Proof. intros l st k ND. now apply record_at_updateQueue. Qed.

Lemma updateQueue_overwrites_by_id_witness :
  NoDup (List.map s_id [bump sale_record]) /\
  record_at 1 (updateQueue [bump sale_record] (idb queued_sw)) =
    Some (bump sale_record) /\
  record_at 2 (updateQueue [bump sale_record] (idb queued_sw)) = None.
Proof.
  assert (ND : NoDup (List.map s_id [bump sale_record])).
  { apply NoDup_cons. split; [intros H; inversion H|constructor]. }
  split; [exact ND|]. split.
  - rewrite (updateQueue_overwrites_by_id [bump sale_record] (idb queued_sw) 1 ND).
    reflexivity.
  - rewrite (updateQueue_overwrites_by_id [bump sale_record] (idb queued_sw) 2 ND).
    reflexivity.
Defined.

(** X11: a [queue-form] message that carries only [url] and [formId]
    is stored with the defaults of [addToQueue] and replayed by the next
    pass as a [POST] to that url with body [{}], [Content-Type:
    application/json], an empty [X-CSRF-Token] and no other header. *)
Theorem bare_message_is_replayed_with_defaults :
  forall (now : string) (net : nat -> Request -> Outcome)
         (url formId : string) (sw : SW),
    let bare :=
      {| fd_url := url; fd_method := None; fd_headers := None;
         fd_body := VUndef; fd_data := VUndef; fd_formId := formId;
         fd_timestamp := None; fd_attempts := None; fd_csrfToken := None |} in
    let sw' := fst (on_message now (QueueForm bare) sw) in
    exists rq,
      In rq (requests (snd (syncForms net sw'))) /\
      rq_url rq = url /\ rq_method rq = "POST" /\
      rq_body rq = Some "{}" /\
      rq_headers rq !! "Content-Type" = Some "application/json" /\
      rq_headers rq !! "X-CSRF-Token" = Some EmptyString /\
      (forall name, name <> "Content-Type" -> name <> "X-CSRF-Token" ->
                    rq_headers rq !! name = None).
Proof.
  intros now net url formId sw bare sw'.
  set (r := inject_key (keygen (idb sw))
              {| d_url := url; d_method := "POST";
                 d_headers := {[ "Content-Type" := "application/json" ]};
                 d_body := VObj []; d_formId := formId; d_timestamp := now;
                 d_attempts := 0; d_csrfToken := EmptyString |}).
  assert (Hin : In r (getQueue (idb sw'))).
  { unfold sw', r. cbn. apply put_record_In. }
  exists (replay_request r). split.
  - rewrite syncForms_requests. apply in_map, filter_In. split; [exact Hin|].
    reflexivity.
  - unfold replay_request, r. cbn.
    split; [reflexivity|]. split; [reflexivity|]. split; [reflexivity|].
    split; [|split].
    + apply lookup_union_Some_l. apply lookup_singleton_eq.
    + rewrite lookup_union_r by (apply lookup_singleton_ne; discriminate).
      apply lookup_insert_eq.
    + intros name N1 N2.
      rewrite lookup_union_r by (apply lookup_singleton_ne; congruence).
      rewrite lookup_insert_ne by congruence.
      apply lookup_singleton_ne. congruence.
Qed.

(** X12: ids are never reused: whatever the service worker does
    between two [queue-form] messages, deletions by sync passes
    included, the record of the second message gets an [id] above that
    of the first. *)
Theorem queued_ids_are_never_reused :
  forall (now1 now2 : string) (fd1 fd2 : FormData) (between : list Event)
         (sw : SW),
    let sw1 := fst (on_message now1 (QueueForm fd1) sw) in
    let sw2 := run_events between sw1 in
    let sw3 := fst (on_message now2 (QueueForm fd2) sw2) in
    exists r1 r2,
      In r1 (getQueue (idb sw1)) /\ s_formId r1 = fd_formId fd1 /\
      In r2 (getQueue (idb sw3)) /\ s_formId r2 = fd_formId fd2 /\
      s_id r1 = keygen (idb sw) /\ s_id r2 = keygen (idb sw2) /\
      s_id r1 < s_id r2.
Proof.
  intros now1 now2 fd1 fd2 between sw sw1 sw2 sw3.
  unfold sw3, sw1. cbn [on_message fst idb].
  match goal with
  | |- context [addToQueue now1 ?f (idb sw)] =>
      destruct (addToQueue_In now1 f (idb sw))
        as (r1 & Hin1 & Hid1 & _ & _ & _ & Hf1 & _)
  end.
  match goal with
  | |- context [addToQueue now2 ?f (idb sw2)] =>
      destruct (addToQueue_In now2 f (idb sw2))
        as (r2 & Hin2 & Hid2 & _ & _ & _ & Hf2 & _)
  end.
  exists r1, r2. repeat split; try assumption.
  rewrite Hid1, Hid2.
  pose proof (keygen_run_events between sw1) as Hk. fold sw2 in Hk.
  unfold sw1 in Hk at 1. cbn in Hk. lia.
Qed.

End BackgroundExtras3.

Section PassList.
Import JS Wire Page Vocabulary Reference.

Variable net : nat -> Request -> Outcome.

Lemma filter_drop_position (qk : list nat) (k n : nat) :
  (forall q, In q qk -> (q < k)%nat) ->
  List.filter (fun q => negb (q =? k)%nat) (qk ++ k :: seq (S k) n) =
  qk ++ seq (S k) n.
Proof.
  intros Hq. rewrite List.filter_app. simpl. rewrite Nat.eqb_refl. simpl. f_equal.
  - apply forallb_filter_id. apply forallb_forall. intros q Hin.
    apply Hq in Hin. destruct (Nat.eqb_spec q k); [lia|reflexivity].
  - apply forallb_filter_id. apply forallb_forall. intros q Hin.
    apply in_seq in Hin. destruct (Nat.eqb_spec q k); [lia|reflexivity].
Qed.

Lemma omap_lookup_insert_below (l : list QueuedForm) (k : nat) x (qk : list nat) :
  (forall q, In q qk -> (q < k)%nat) ->
  omap (fun q => <[k := x]> l !! q) qk = omap (fun q => l !! q) qk.
Proof.
  intros Hq. apply omap_agree. intros q Hin. apply Hq in Hin.
  apply list_lookup_insert_ne. lia.
Qed.

(** The loop over the shared array, from position [length pre] on, does
    what [pass_list] does with the entries from there on. *)
Lemma fold_pass_list forms :
  forall pre qk st,
    objs st = pre ++ forms ->
    queue st = qk ++ seq (length pre) (length forms) ->
    (forall q, In q qk -> (q < length pre)%nat) ->
    let st' := fold_left (pass_body net) (seq (length pre) (length forms)) st in
    let r := pass_list net (page st) (trace st) forms in
    page st' = fst (fst r) /\ trace st' = snd (fst r) /\
    omap (fun q => objs st' !! q) (queue st') =
      omap (fun q => objs st !! q) qk ++ snd r.
Proof.
  induction forms as [|form rest IH]; intros pre qk st Ho Hq Hlt; cbn zeta.
  - simpl. simpl in Hq. rewrite app_nil_r in Hq. rewrite Hq, app_nil_r.
    repeat split.
  - cbn [length seq fold_left].
    assert (Hk : objs st !! length pre = Some form).
    { rewrite Ho. now apply list_lookup_middle. }
    assert (Hpre : forall x, (pre ++ [x]) ++ rest = pre ++ x :: rest).
    { intros x. now rewrite <- app_assoc. }
    assert (Hlen : forall x, length (pre ++ [x]) = S (length pre)).
    { intros x. rewrite length_app. simpl. lia. }
    assert (Hlt' : forall q, In q qk -> (q < S (length pre))%nat).
    { intros q Hin. apply Hlt in Hin. lia. }
    remember (pass_body net st (length pre)) as st1 eqn:E1.
    unfold pass_body in E1. rewrite Hk in E1. cbn [pass_list].
    unfold exhausted, replay_options.
    destruct (3 <=? q_attempts form).
    + specialize (IH (pre ++ [form]) qk st1). subst st1.
      cbn [objs queue page trace] in IH. rewrite Hlen in IH.
      apply IH; [now rewrite Ho, Hpre| |exact Hlt'].
      rewrite Hq. cbn [length seq]. now apply filter_drop_position.
    + destruct (fetchData _ _ _ _ _) as [[p' evs] [v|]].
      * specialize (IH (pre ++ [form]) qk st1). subst st1.
        cbn [objs queue page trace] in IH. rewrite Hlen in IH.
        apply IH; [now rewrite Ho, Hpre| |exact Hlt'].
        rewrite Hq. cbn [length seq]. now apply filter_drop_position.
      * specialize (IH (pre ++ [increment form]) (qk ++ [length pre]) st1).
        rewrite Hlen in IH.
        destruct IH as (Hp & Ht & Hm).
        -- subst st1. cbn [objs]. rewrite Ho, Hpre.
           rewrite insert_app_r_alt by lia. now rewrite Nat.sub_diag.
        -- subst st1. cbn [queue]. rewrite Hq. cbn [length seq].
           now rewrite <- app_assoc.
        -- intros q Hin. apply in_app_or in Hin as [Hin|[<-|[]]];
             [apply Hlt in Hin|]; lia.
        -- assert (Eo : objs st1 = <[length pre := increment form]> (objs st))
             by now subst st1.
           assert (Ep : page st1 = p') by now subst st1.
           assert (Et : trace st1 = trace st ++ evs) by now subst st1.
           rewrite Ep, Et in Hp, Ht, Hm. clear E1.
           destruct (pass_list net p' (trace st ++ evs) rest) as [[p'' tr'] kept].
           cbn [fst snd] in *. split; [exact Hp|]. split; [exact Ht|].
           rewrite Hm, omap_app, Eo.
           rewrite omap_lookup_insert_below by exact Hlt.
           rewrite <- app_assoc. f_equal. csimpl.
           rewrite list_lookup_insert_eq; [reflexivity|].
           rewrite Ho, length_app. simpl. lia.
Qed.

(** [syncPendingForms] is [pass_list] over the entries of the queue. *)
Lemma syncPendingForms_pass_list p :
  pending p <> [] ->
  syncPendingForms net p =
  (setFormQueue (snd (pass_list net p [] (pending p)))
                (fst (fst (pass_list net p [] (pending p)))),
   snd (fst (pass_list net p [] (pending p)))).
Proof.
  intros NE. unfold syncPendingForms. fold (pending p).
  destruct (pending p) as [|f0 fs] eqn:Q; [congruence|].
  rewrite <- Q. clear Q NE f0 fs. unfold run_pass.
  destruct (fold_pass_list (pending p) [] []
              {| objs := pending p; queue := seq 0 (length (pending p));
                 page := p; trace := [] |} eq_refl eq_refl)
    as (Hp & Ht & Hm).
  { intros q []. }
  cbn [length page trace objs queue] in *. simpl in Hm.
  now rewrite Hp, Ht, Hm.
Qed.

End PassList.

Section PassListFacts.
Import JS Wire Page Vocabulary Reference.

Variable net : nat -> Request -> Outcome.

Lemma pass_list_kept forms :
  forall p tr,
  exists sub,
    sublist sub forms /\
    Forall (fun form => q_attempts form < 3) sub /\
    snd (pass_list net p tr forms) = List.map increment sub.
Proof.
  induction forms as [|form rest IH]; intros p tr.
  - exists []. repeat split; constructor.
  - cbn [pass_list]. unfold exhausted.
    destruct (Z.leb_spec 3 (q_attempts form)) as [Hge|Hlt].
    + destruct (IH p (tr ++ [Toast ("Failed to sync form " +:+ q_formId form +:+
                                    " after max attempts") "danger"]))
        as (sub & Hs & Hf & He).
      exists sub. split; [now apply sublist_cons|]. split; assumption.
    + destruct (fetchData _ _ _ _ _) as [[p' evs] [v|]].
      * destruct (IH p' (tr ++ evs ++
                         [Toast ("Synced form " +:+ q_formId form) "success"]))
          as (sub & Hs & Hf & He).
        exists sub. split; [now apply sublist_cons|]. split; assumption.
      * destruct (IH p' (tr ++ evs)) as (sub & Hs & Hf & He).
        exists (form :: sub). split; [now apply sublist_skip|].
        split; [now constructor|].
        destruct (pass_list net p' (tr ++ evs) rest) as [[p'' tr'] kept].
        simpl in *. now rewrite He.
Qed.

Lemma fetchData_never_ok calls p url options :
  never_ok net -> offline p = false ->
  fetchData net calls p url options =
  (p, [Fetch (fetch_request p url options)], Thrown).
Proof.
  intros Hn Off. unfold fetchData. rewrite Off.
  destruct (net calls (fetch_request p url options)) as [|[] json] eqn:E;
    try reflexivity.
  exfalso. exact (Hn _ _ _ E).
Qed.

Lemma pass_list_never_ok forms :
  never_ok net ->
  forall p tr, offline p = false ->
    fst (fst (pass_list net p tr forms)) = p /\
    requests_of (snd (fst (pass_list net p tr forms))) =
      requests_of tr ++
      List.map (replay_fetch p)
        (List.filter (fun form => negb (exhausted form)) forms) /\
    snd (pass_list net p tr forms) = omap reattempted forms.
Proof.
  intros Hn. induction forms as [|form rest IH]; intros p tr Off.
  - simpl. now rewrite app_nil_r.
  - cbn [pass_list]. unfold reattempted at 1. csimpl.
    cbn [List.filter]. destruct (exhausted form) eqn:Ex; cbn [negb].
    + destruct (IH p (tr ++ [Toast ("Failed to sync form " +:+ q_formId form +:+
                                    " after max attempts") "danger"]) Off)
        as (Hp & Hr & Hk).
      split; [exact Hp|]. split; [|exact Hk].
      rewrite Hr, requests_of_app. simpl. now rewrite app_nil_r.
    + rewrite fetchData_never_ok by assumption.
      destruct (IH p (tr ++ [Fetch (fetch_request p (q_url form)
                                      (replay_options form))]) Off)
        as (Hp & Hr & Hk).
      destruct (pass_list net p _ rest) as [[p'' tr'] kept].
      cbn [fst snd] in *. split; [exact Hp|]. split; [|now rewrite Hk].
      rewrite Hr, requests_of_app. simpl. now rewrite <- app_assoc.
Qed.

Lemma pass_list_all_exhausted forms :
  Forall (fun form => exhausted form = true) forms ->
  forall p tr,
    fst (fst (pass_list net p tr forms)) = p /\
    requests_of (snd (fst (pass_list net p tr forms))) = requests_of tr /\
    snd (pass_list net p tr forms) = [].
Proof.
  induction 1 as [|form rest Hx _ IH]; intros p tr.
  - now simpl.
  - cbn [pass_list]. rewrite Hx.
    destruct (IH p (tr ++ [Toast ("Failed to sync form " +:+ q_formId form +:+
                                  " after max attempts") "danger"]))
      as (Hp & Hr & Hk).
    split; [exact Hp|]. split; [|exact Hk].
    rewrite Hr, requests_of_app. simpl. now rewrite app_nil_r.
Qed.

End PassListFacts.

Section ForegroundExtras.
Import JS Wire Page Vocabulary Reference Examples.

Lemma pending_setFormQueue l p : pending (setFormQueue l p) = l.
Proof. reflexivity. Qed.

(** X13: the list a pass of [syncPendingForms] writes back is made of
    entries of the old list that had fewer than 3 attempts, in their
    old order, each with [attempts] one higher: the pass adds no entry,
    reorders none, and keeps none unchanged. *)
Theorem foreground_pass_keeps_only_failed_entries :
  forall (net : nat -> Request -> Outcome) (p : State),
    exists sub,
      sublist sub (pending p) /\
      Forall (fun form => q_attempts form < 3) sub /\
      pending (fst (syncPendingForms net p)) = List.map increment sub.
Proof.
  intros net p. destruct (pending p) as [|f0 fs] eqn:Q.
  - exists []. split; [constructor|]. split; [constructor|].
    unfold syncPendingForms. fold (pending p). now rewrite Q.
  - rewrite <- Q. rewrite syncPendingForms_pass_list by (rewrite Q; discriminate).
    cbn [fst]. rewrite pending_setFormQueue. apply pass_list_kept.
Qed.

Lemma syncPendingForms_never_ok net p :
  never_ok net -> offline p = false ->
  pending (fst (syncPendingForms net p)) = omap reattempted (pending p) /\
  requests_of (snd (syncPendingForms net p)) =
    List.map (replay_fetch p)
      (List.filter (fun form => negb (exhausted form)) (pending p)) /\
  offline (fst (syncPendingForms net p)) = false /\
  token (fst (syncPendingForms net p)) = token p /\
  csrf_meta (fst (syncPendingForms net p)) = csrf_meta p /\
  cachedData (fst (syncPendingForms net p)) = cachedData p.
Proof.
  intros Hn Off. destruct (pending p) as [|f0 fs] eqn:Q.
  - unfold syncPendingForms. fold (pending p). rewrite Q. simpl.
    repeat split; assumption.
  - rewrite <- Q. rewrite syncPendingForms_pass_list by (rewrite Q; discriminate).
    cbn [fst snd]. rewrite pending_setFormQueue.
    destruct (pass_list_never_ok net (pending p) Hn p [] Off) as (Hp & Hr & Hk).
    rewrite Hp, Hr, Hk. repeat split; assumption.
Qed.

(** X14: a pass of [syncPendingForms] run online while the network
    never answers [ok]: every entry with fewer than 3 attempts is called
    once and kept with [attempts] one higher, every other entry is
    dropped, and the cached data are not touched. *)
Theorem foreground_pass_with_network_down :
  forall (net : nat -> Request -> Outcome) (p : State),
    never_ok net -> offline p = false ->
    pending (fst (syncPendingForms net p)) = omap reattempted (pending p) /\
    requests_of (snd (syncPendingForms net p)) =
      List.map (replay_fetch p)
        (List.filter (fun form => q_attempts form <? 3) (pending p)) /\
    cachedData (fst (syncPendingForms net p)) = cachedData p.
Proof.
  intros net p Hn Off.
  destruct (syncPendingForms_never_ok net p Hn Off) as (Hk & Hr & _ & _ & _ & Hc).
  split; [exact Hk|]. split; [|exact Hc]. rewrite Hr. f_equal.
  apply filter_ext. intros form. unfold exhausted.
  destruct (Z.leb_spec 3 (q_attempts form)), (Z.ltb_spec (q_attempts form) 3);
    try reflexivity; lia.
Qed.

Lemma foreground_pass_with_network_down_witness :
  never_ok down /\ offline online_page_with_sale = false /\
  pending (fst (syncPendingForms down online_page_with_sale)) =
    [increment sale_entry] /\
  List.map rq_url (requests_of (snd (syncPendingForms down online_page_with_sale))) =
    ["/api/addSale"].
Proof.
  assert (N : never_ok down) by (intros calls rq json; discriminate).
  split; [exact N|]. split; [reflexivity|].
  destruct (foreground_pass_with_network_down down online_page_with_sale N eq_refl)
    as (Hk & Hr & _).
  rewrite Hk, Hr. split; reflexivity.
Defined.

End ForegroundExtras.

Section ForegroundBudget.
Import JS Wire Page Vocabulary Reference Examples.

Lemma pass_list_exhausted_trace net forms :
  Forall (fun form => exhausted form = true) forms ->
  forall p tr,
    pass_list net p tr forms =
    (p,
     tr ++ List.map
             (fun form =>
                Toast ("Failed to sync form " +:+ q_formId form +:+
                       " after max attempts") "danger") forms,
     []).
Proof.
  induction 1 as [|form rest Hx _ IH]; intros p tr.
  - simpl. now rewrite app_nil_r.
  - cbn [pass_list]. rewrite Hx, IH. simpl. now rewrite <- app_assoc.
Qed.

Lemma reattempted_live (l : list QueuedForm) :
  Forall (fun form => exhausted form = false) l ->
  omap reattempted l = List.map increment l.
Proof.
  induction 1 as [|form rest Hx _ IH]; csimpl; [reflexivity|].
  unfold reattempted at 1. now rewrite Hx, IH.
Qed.

Lemma filter_live (l : list QueuedForm) :
  Forall (fun form => exhausted form = false) l ->
  List.filter (fun form => negb (exhausted form)) l = l.
Proof.
  induction 1 as [|form rest Hx _ IH]; simpl; [reflexivity|].
  now rewrite Hx, IH.
Qed.

(** X15: the retry budget of the foreground pass.  Entries that start
    with [attempts = 0], the page online and a network that never
    answers [ok]: each of the first three passes calls the network once
    per entry; after the third every entry has three attempts; the
    fourth pass, on any network, makes no call, shows one "Failed to
    sync form ... after max attempts" toast per entry and leaves the
    queue empty. *)
Theorem foreground_retry_budget :
  forall (net1 net2 net3 net4 : nat -> Request -> Outcome) (p : State),
    offline p = false ->
    Forall (fun form => q_attempts form = 0) (pending p) ->
    never_ok net1 -> never_ok net2 -> never_ok net3 ->
    let pass1 := syncPendingForms net1 p in
    let pass2 := syncPendingForms net2 (fst pass1) in
    let pass3 := syncPendingForms net3 (fst pass2) in
    let pass4 := syncPendingForms net4 (fst pass3) in
    length (requests_of (snd pass1)) = length (pending p) /\
    length (requests_of (snd pass2)) = length (pending p) /\
    length (requests_of (snd pass3)) = length (pending p) /\
    pending (fst pass3) =
      List.map (fun form => increment (increment (increment form))) (pending p) /\
    snd pass4 =
      List.map
        (fun form =>
           Toast ("Failed to sync form " +:+ q_formId form +:+
                  " after max attempts") "danger") (pending p) /\
    pending (fst pass4) = [].
Proof.
  intros net1 net2 net3 net4 p Off Fresh N1 N2 N3 pass1 pass2 pass3 pass4.
  set (q0 := pending p) in *.
  assert (Live : forall (f : QueuedForm -> QueuedForm) a,
            (forall x, q_attempts (f x) = q_attempts x + a) -> a < 3 ->
            Forall (fun x => exhausted x = false) (List.map f q0)).
  { intros f a Hf Ha. apply Forall_forall. intros x Hx.
    apply list_elem_of_In, in_map_iff in Hx as (y & <- & Hy).
    rewrite Forall_forall in Fresh. apply list_elem_of_In, Fresh in Hy.
    unfold exhausted. rewrite Hf, Hy.
    destruct (Z.leb_spec 3 (0 + a)); [lia|reflexivity]. }
  assert (L0 : Forall (fun x => exhausted x = false) q0).
  { specialize (Live (fun x => x) 0). rewrite map_id in Live.
    apply Live; [intros; lia|lia]. }
  assert (L1 : Forall (fun x => exhausted x = false) (List.map increment q0)).
  { apply (Live increment 1); [reflexivity|lia]. }
  assert (L2 : Forall (fun x => exhausted x = false)
                 (List.map (fun x => increment (increment x)) q0)).
  { apply (Live (fun x => increment (increment x)) 2); [|lia].
    intros x. simpl. lia. }
  destruct (syncPendingForms_never_ok net1 p N1 Off)
    as (K1 & R1 & O1 & _).
  fold pass1 in K1, R1, O1. fold q0 in K1, R1.
  rewrite reattempted_live in K1 by exact L0.
  destruct (syncPendingForms_never_ok net2 (fst pass1) N2 O1)
    as (K2 & R2 & O2 & _).
  fold pass2 in K2, R2, O2. rewrite K1 in K2, R2.
  rewrite reattempted_live, map_map in K2 by exact L1.
  destruct (syncPendingForms_never_ok net3 (fst pass2) N3 O2)
    as (K3 & R3 & O3 & _).
  fold pass3 in K3, R3, O3. rewrite K2 in K3, R3.
  rewrite reattempted_live, map_map in K3 by exact L2.
  assert (X3 : Forall (fun x => exhausted x = true) (pending (fst pass3))).
  { rewrite K3. apply Forall_forall. intros x Hx.
    apply list_elem_of_In, in_map_iff in Hx as (y & <- & Hy).
    rewrite Forall_forall in Fresh. apply list_elem_of_In, Fresh in Hy.
    unfold exhausted. simpl. now rewrite Hy. }
  assert (Hcase : pending (fst pass3) = [] \/ pending (fst pass3) <> []).
  { destruct (pending (fst pass3)); [now left|right; discriminate]. }
  split; [|split; [|split; [|split; [|split]]]].
  - now rewrite R1, filter_live, length_map.
  - now rewrite R2, filter_live, !length_map.
  - now rewrite R3, filter_live, !length_map.
  - exact K3.
  - destruct Hcase as [E|NE].
    + unfold pass4, syncPendingForms. fold (pending (fst pass3)). rewrite E.
      rewrite E in K3. symmetry in K3. apply map_eq_nil in K3. now rewrite K3.
    + unfold pass4. rewrite syncPendingForms_pass_list by exact NE.
      rewrite pass_list_exhausted_trace by exact X3. cbn [snd fst].
      rewrite K3, map_map. reflexivity.
  - destruct Hcase as [E|NE].
    + unfold pass4, syncPendingForms. fold (pending (fst pass3)). now rewrite E.
    + unfold pass4. rewrite syncPendingForms_pass_list by exact NE.
      now rewrite pass_list_exhausted_trace by exact X3.
Qed.

Lemma foreground_retry_budget_witness :
  offline online_page_with_sale = false /\
  Forall (fun form => q_attempts form = 0) (pending online_page_with_sale) /\
  never_ok down /\
  List.map q_attempts
    (pending (fst (syncPendingForms down
       (fst (syncPendingForms down
          (fst (syncPendingForms down online_page_with_sale))))))) = [3] /\
  snd (syncPendingForms refusing
        (fst (syncPendingForms down
           (fst (syncPendingForms down
              (fst (syncPendingForms down online_page_with_sale))))))) =
    [Toast "Failed to sync form saleForm after max attempts" "danger"].
Proof.
  assert (N : never_ok down) by (intros calls rq json; discriminate).
  assert (Fresh : Forall (fun form => q_attempts form = 0)
                    (pending online_page_with_sale)) by (repeat constructor).
  split; [reflexivity|]. split; [exact Fresh|]. split; [exact N|].
  destruct (foreground_retry_budget down down down refusing
              online_page_with_sale eq_refl Fresh N N N)
    as (_ & _ & _ & Hk & Ht & _).
  rewrite Hk, Ht. split; reflexivity.
Defined.

End ForegroundBudget.

Section ForegroundExtras2.
Import JS Wire Page Vocabulary Reference Triggers Examples.

(** X16: the request the foreground pass issues for a queued entry
    with fewer than 3 attempts: the entry's [url]; its [method], or
    [GET] when it has none; the JSON of its [data], and no body when
    [data] is falsy; [Content-Type: application/json]; an [X-CSRF-Token]
    read from the page at replay time; [Authorization: Bearer <token>]
    when the page holds a token; no other header.  The entry's own
    [body], [headers] and [csrfToken] are not used. *)
Theorem foreground_replay_request_shape :
  forall (net : nat -> Request -> Outcome) (p : State) (form : QueuedForm),
    offline p = false -> In form (pending p) -> q_attempts form < 3 ->
    exists rq,
      In rq (requests_of (snd (syncPendingForms net p))) /\
      rq_url rq = q_url form /\
      rq_method rq = or_string (q_method form) "GET" /\
      rq_body rq = (if truthy (q_data form) then stringify (q_data form)
                    else None) /\
      rq_headers rq !! "Content-Type" = Some "application/json" /\
      rq_headers rq !! "X-CSRF-Token" = Some (getCSRFToken p) /\
      rq_headers rq !! "Authorization" =
        (match token p with
         | EmptyString => None
         | t => Some ("Bearer " +:+ t)
         end) /\
      (forall name, name <> "Content-Type" -> name <> "X-CSRF-Token" ->
                    name <> "Authorization" -> rq_headers rq !! name = None).
Proof.
  intros net p form Off Hin Ha. exists (replay_fetch p form). split.
  - rewrite syncPendingForms_requests by exact Off.
    apply in_map, filter_In. split; [exact Hin|]. unfold exhausted.
    destruct (Z.leb_spec 3 (q_attempts form)); [lia|reflexivity].
  - unfold replay_fetch, fetch_request, replay_options. cbn.
    split; [reflexivity|]. split; [reflexivity|]. split; [reflexivity|].
    rewrite (left_id_L ∅ (∪)).
    split; [|split; [|split]].
    + destruct (token p).
      * rewrite (left_id_L ∅ (∪)). rewrite lookup_insert_ne by discriminate.
        apply lookup_singleton_eq.
      * rewrite lookup_union_r by (apply lookup_singleton_ne; discriminate).
        rewrite lookup_insert_ne by discriminate. apply lookup_singleton_eq.
    + destruct (token p).
      * rewrite (left_id_L ∅ (∪)). apply lookup_insert_eq.
      * rewrite lookup_union_r by (apply lookup_singleton_ne; discriminate).
        apply lookup_insert_eq.
    + destruct (token p).
      * rewrite (left_id_L ∅ (∪)). rewrite lookup_insert_ne by discriminate.
        apply lookup_singleton_ne. discriminate.
      * apply lookup_union_Some_l. apply lookup_singleton_eq.
    + intros name N1 N2 N3. destruct (token p).
      * rewrite (left_id_L ∅ (∪)). rewrite lookup_insert_ne by congruence.
        apply lookup_singleton_ne. congruence.
      * rewrite lookup_union_r by (apply lookup_singleton_ne; congruence).
        rewrite lookup_insert_ne by congruence.
        apply lookup_singleton_ne. congruence.
Qed.

Lemma foreground_replay_request_shape_witness :
  offline online_page_with_sale = false /\
  In sale_entry (pending online_page_with_sale) /\
  q_attempts sale_entry < 3 /\
  exists rq,
    In rq (requests_of (snd (syncPendingForms down online_page_with_sale))) /\
    rq_url rq = "/api/addSale" /\ rq_method rq = "POST" /\
    rq_body rq = stringify (VObj [("amount", VNum 5)]) /\
    rq_headers rq !! "X-CSRF-Token" = Some "tok".
Proof.
  assert (Hin : In sale_entry (pending online_page_with_sale)) by (now left).
  assert (Hlt : q_attempts sale_entry < 3) by (simpl; lia).
  split; [reflexivity|]. split; [exact Hin|]. split; [exact Hlt|].
  destruct (foreground_replay_request_shape down online_page_with_sale
              sale_entry eq_refl Hin Hlt)
    as (rq & Hrq & Hu & Hm & Hb & _ & Hc & _).
  exists rq. repeat split; assumption.
Defined.

(** X17: [DataManager.submitForm] on a page that is online never
    queues: it makes exactly one network call, posts nothing to the
    service worker and leaves the localforage queue as it was; if it
    throws, the "Error submitting form" toast was shown, and what it
    returns is the body the server answered with. *)
Theorem submitForm_online_never_queues :
  forall (now : string) (net : nat -> Request -> Outcome) (url : string)
         (method : option string) (data : value) (formId : string)
         (successCallback : bool) (p : State),
    offline p = false ->
    let run := submitForm now net url method data formId successCallback p in
    let rq := fetch_request p url
                {| opt_method := method; opt_headers := None;
                   opt_body := data |} in
    formQueue (fst (fst run)) = formQueue p /\
    messages_of (snd (fst run)) = [] /\
    requests_of (snd (fst run)) = [rq] /\
    match snd run with
    | Thrown => In (Toast "Error submitting form" "danger") (snd (fst run))
    | Returned result => net 0%nat rq = Response true (Some result)
    end.
Proof.
  intros now net url method data formId cb p Off run rq.
  unfold run, submitForm. rewrite Off.
  destruct (fetchData net 0 p url _) as [[p' evs] c] eqn:F.
  pose proof (fetchData_env _ _ _ _ _ _ _ _ F) as (_ & _ & _ & _ & Hq).
  pose proof (fetchData_events _ _ _ _ _ _ _ _ F) as He. rewrite Off in He.
  subst evs. fold rq in F |- *.
  assert (Hret : forall v, c = Returned v -> net 0%nat rq = Response true (Some v)).
  { intros v ->. unfold fetchData in F. rewrite Off in F. fold rq in F.
    destruct (net 0%nat rq) as [|[] [d|]]; try discriminate.
    destruct (cache_response _ _ _ _); [|discriminate]. congruence. }
  destruct c as [result|].
  - destruct (get_prop result "success") as [success|]; cbn [fst snd].
    + split; [exact Hq|]. split; [now destruct (truthy success && cb)|].
      split; [now destruct (truthy success && cb)|]. now apply Hret.
    + split; [exact Hq|]. split; [reflexivity|]. split; [reflexivity|].
      right. now left.
  - cbn [fst snd]. split; [exact Hq|]. split; [reflexivity|].
    split; [reflexivity|]. right. now left.
Qed.

Lemma submitForm_online_never_queues_witness :
  offline online_page_with_sale = false /\
  formQueue (fst (fst (submitForm "t1" down "/api/addExpense" (Some "POST")
                         (VObj [("amount", VNum 7)]) "expenseForm" true
                         online_page_with_sale))) =
    formQueue online_page_with_sale /\
  snd (submitForm "t1" down "/api/addExpense" (Some "POST")
         (VObj [("amount", VNum 7)]) "expenseForm" true
         online_page_with_sale) = Thrown.
Proof.
  split; [reflexivity|].
  destruct (submitForm_online_never_queues "t1" down "/api/addExpense"
              (Some "POST") (VObj [("amount", VNum 7)]) "expenseForm" true
              online_page_with_sale eq_refl) as (Hq & _).
  split; [exact Hq|reflexivity].
Defined.

(** X18: [DataManager.submitForm] on a page that is offline makes no
    network call, whatever the network would answer; it returns
    [{success: true, message: "Request queued"}], appends exactly one
    entry to the queue, shows the "queued" toast and does not call the
    success callback. *)
Theorem submitForm_offline_queues_without_network :
  forall (now : string) (net : nat -> Request -> Outcome) (url : string)
         (method : option string) (data : value) (formId : string)
         (successCallback : bool) (p : State),
    offline p = true ->
    let run := submitForm now net url method data formId successCallback p in
    requests_of (snd (fst run)) = [] /\
    snd run = Returned (VObj [("success", VBool true);
                              ("message", VStr "Request queued")]) /\
    length (pending (fst (fst run))) = S (length (pending p)) /\
    ~ In SuccessCallback (snd (fst run)) /\
    In (Toast "Request queued for sync when online" "info") (snd (fst run)).
Proof.
  intros now net url method data formId cb p Off run.
  unfold run, submitForm. rewrite Off. unfold queueForm, pending.
  destruct (controller p); cbn.
  - rewrite length_app. simpl. repeat split; try lia.
    + intros [H|[H|[]]]; discriminate.
    + right. now left.
  - rewrite length_app. simpl. repeat split; try lia.
    + intros [H|[]]; discriminate.
    + now left.
Qed.

Lemma submitForm_offline_queues_without_network_witness :
  offline offline_page = true /\
  requests_of (snd (fst (submitForm "t0" refusing "/api/addSale" (Some "POST")
                           (VObj [("amount", VNum 5)]) "saleForm" true
                           offline_page))) = [] /\
  length (pending (fst (fst (submitForm "t0" refusing "/api/addSale"
                               (Some "POST") (VObj [("amount", VNum 5)])
                               "saleForm" true offline_page)))) = 1%nat.
Proof.
  split; [reflexivity|].
  destruct (submitForm_offline_queues_without_network "t0" refusing
              "/api/addSale" (Some "POST") (VObj [("amount", VNum 5)])
              "saleForm" true offline_page eq_refl) as (Hr & _ & Hl & _).
  split; [exact Hr|exact Hl].
Defined.

(** X20: [fetchData] touches nothing but the cache: the offline flag,
    the credentials token, the CSRF token, the controller and the form
    queue are as before; offline it makes no network call and returns
    the offline answer, online it makes exactly one call. *)
Theorem fetchData_touches_only_the_cache :
  forall (net : nat -> Request -> Outcome) (calls : nat) (p : State)
         (url : string) (options : Options),
    let run := fetchData net calls p url options in
    offline (fst (fst run)) = offline p /\
    token (fst (fst run)) = token p /\
    csrf_meta (fst (fst run)) = csrf_meta p /\
    controller (fst (fst run)) = controller p /\
    formQueue (fst (fst run)) = formQueue p /\
    (if offline p
     then run = (p, [], Returned (handleOfflineData p url))
     else snd (fst run) = [Fetch (fetch_request p url options)]).
Proof.
  intros net calls p url options run.
  destruct run as [[p' evs] c] eqn:F. unfold run in F.
  pose proof (fetchData_env _ _ _ _ _ _ _ _ F) as (H1 & H2 & H3 & H4 & H5).
  pose proof (fetchData_events _ _ _ _ _ _ _ _ F) as He.
  cbn [fst snd]. repeat split; try assumption.
  destruct (offline p) eqn:Off; [|exact He].
  rewrite <- F. now apply fetchData_offline.
Qed.

(** X21: what starts the foreground pass runs it online or not at
    all.  [checkPendingForms] does nothing on an offline page and is the
    pass on an online one; the listener for [offline-status-changed]
    sets the flag to the status it is told, and runs the pass only when
    that status is "online", after clearing the flag.  In both cases the
    pass then calls the network once for every entry with fewer than 3
    attempts. *)
Theorem triggers_run_the_pass_online_or_not_at_all :
  forall (net : nat -> Request -> Outcome) (p : State) (status : bool),
    let live := List.filter (fun form => q_attempts form <? 3) (pending p) in
    let check := checkPendingForms net p in
    let heard := on_worker_message net (OfflineStatusChanged status) p in
    (if offline p
     then check = (p, [])
     else check = syncPendingForms net p /\
          requests_of (snd check) = List.map (replay_fetch p) live) /\
    offline (fst heard) = status /\
    (if status
     then heard = (setOfflineStatus true p, [Toast "You are now offline" "warning"])
     else requests_of (snd heard) = List.map (replay_fetch p) live /\
          In (Toast "Back online" "success") (snd heard)).
Proof.
  intros net p status live check heard.
  assert (Hlive : forall q,
            List.filter (fun form => negb (exhausted form)) q =
            List.filter (fun form => q_attempts form <? 3) q).
  { intros q. apply filter_ext. intros form. unfold exhausted.
    destruct (Z.leb_spec 3 (q_attempts form)), (Z.ltb_spec (q_attempts form) 3);
      try reflexivity; lia. }
  split; [|split].
  - unfold check, checkPendingForms. destruct (offline p) eqn:Off; cbn [negb].
    + reflexivity.
    + split; [reflexivity|].
      rewrite syncPendingForms_requests by exact Off. now rewrite Hlive.
  - unfold heard, on_worker_message. destruct status; cbn [negb].
    + reflexivity.
    + pose proof (syncPendingForms_offline_flag net (setOfflineStatus false p)) as Fl.
      destruct (syncPendingForms net (setOfflineStatus false p)). exact Fl.
  - unfold heard, on_worker_message. destruct status; cbn [negb].
    + reflexivity.
    + pose proof (syncPendingForms_requests net (setOfflineStatus false p) eq_refl) as Rq.
      destruct (syncPendingForms net (setOfflineStatus false p)) as [p2 evs].
      cbn [snd] in *. split; [|now left].
      change (requests_of (Toast "Back online" "success" :: evs))
        with (requests_of evs).
      rewrite Rq. unfold live. now rewrite <- Hlive.
Qed.

End ForegroundExtras2.

Section CacheRoundTrip.
Import JS Wire Page Vocabulary Examples.

Lemma truthy_not_undefined v : truthy v = true -> v <> VUndef.
Proof. intros H ->. discriminate H. Qed.

Lemma getItem_setItem key v p :
  truthy v = true -> getItem key (setItem key v p) = v.
Proof.
  intros H. unfold getItem, setItem. cbn. rewrite lookup_insert_eq. cbn.
  destruct v; try reflexivity. discriminate H.
Qed.

Lemma cached_setCachedData type v p :
  cached type (setOfflineStatus true (setCachedData type v p)) = v.
Proof. unfold cached. cbn. now rewrite lookup_insert_eq. Qed.

(** X19: what [fetchData] caches online is what it serves offline.  If
    the url names exactly one of the five cached endpoints and the
    server answers [ok] with a truthy [success] and a truthy [data], the
    call returns the answer, and the same url fetched once the offline
    flag is set returns [{success: true, data}] with that [data],
    without a network call. *)
Theorem cached_answer_is_served_offline :
  forall (net net' : nat -> Request -> Outcome) (calls calls' : nat)
         (p : State) (url : string) (options options' : Options)
         (endpoint type : string) (data success payload : value),
    offline p = false ->
    List.filter (fun e => includes url (fst e)) cache_table = [(endpoint, type)] ->
    net calls (fetch_request p url options) = Response true (Some data) ->
    get_prop data "success" = Some success -> truthy success = true ->
    get_prop data "data" = Some payload -> truthy payload = true ->
    let online := fetchData net calls p url options in
    let later := setOfflineStatus true (fst (fst online)) in
    snd online = Returned data /\
    fetchData net' calls' later url options' =
      (later, [], Returned (offline_hit payload)).
Proof.
  intros net net' calls calls' p url options options' endpoint type data
         success payload Off Hf Hnet Hs Hts Hd Htp online later.
  unfold later, online, fetchData. rewrite Off, Hnet.
  unfold cache_table in *. cbn [List.filter fst] in Hf.
  cbn [cache_response]. rewrite Hs, Hts, Hd.
  destruct (includes url "/api/getSalesRecords") eqn:I1;
  destruct (includes url "/api/getCustomers") eqn:I2;
  destruct (includes url "/api/getVendors") eqn:I3;
  destruct (includes url "/api/getExpensesRecords") eqn:I4;
  destruct (includes url "/api/generateReports") eqn:I5;
  try discriminate Hf; cbn [fst snd].
  all: split; [reflexivity|].
  all: cbn [offline setOfflineStatus]; unfold handleOfflineData.
  all: rewrite ?I1, ?I2, ?I3, ?I4, ?I5.
  - rewrite cached_setCachedData, Htp. reflexivity.
  - rewrite cached_setCachedData, Htp. reflexivity.
  - rewrite cached_setCachedData, Htp. reflexivity.
  - rewrite cached_setCachedData, Htp. reflexivity.
  - unfold getCachedMetrics.
    change (getItem "metrics" (setOfflineStatus true (setCachedData "metrics" payload p)))
      with (getItem "metrics" (setItem "metrics" payload p)).
    rewrite getItem_setItem by exact Htp. rewrite Htp, Htp. reflexivity.
Qed.

End CacheRoundTrip.

Section Includes.
Import JS.

Lemma prefix_spec (a s : string) :
  String.prefix a s = true <-> exists post, s = a +:+ post.
Proof.
  revert s. induction a as [|c a IH]; intros s; simpl.
  - split; [intros _; now exists s|intros _; now destruct s].
  - destruct s as [|c' s]; simpl.
    + split; [discriminate|intros [post H]; discriminate].
    + destruct (Ascii.ascii_dec c c') as [->|NE].
      * rewrite IH. split; intros [post H]; exists post.
        -- simpl. now rewrite H.
        -- simpl in H. now injection H.
      * split; [discriminate|]. intros [post H]. simpl in H.
        injection H as E _. congruence.
Qed.

Lemma includes_unfold (s sub : string) :
  includes s sub =
  if String.prefix sub s then true
  else match s with
       | EmptyString => false
       | String _ rest => includes rest sub
       end.
Proof. now destruct s. Qed.

Lemma includes_spec (s sub : string) :
  includes s sub = true <-> exists pre post, s = pre +:+ sub +:+ post.
Proof.
  split.
  - induction s as [|c s IH]; rewrite includes_unfold.
    + destruct (String.prefix sub EmptyString) eqn:P; [|discriminate].
      intros _. apply prefix_spec in P as [post H]. now exists EmptyString, post.
    + destruct (String.prefix sub (String c s)) eqn:P.
      * intros _. apply prefix_spec in P as [post H]. now exists EmptyString, post.
      * intros H. apply IH in H as (pre & post & ->).
        now exists (String c pre), post.
  - intros (pre & post & ->). induction pre as [|c pre IH].
    + rewrite includes_unfold.
      replace (String.prefix sub (EmptyString +:+ sub +:+ post)) with true;
        [reflexivity|].
      symmetry. apply prefix_spec. now exists post.
    + rewrite includes_unfold. simpl.
      match goal with
      | |- (if ?b then _ else _) = _ => destruct b
      end; [reflexivity|exact IH].
Qed.

Lemma append_assoc (a b c : string) : (a +:+ b) +:+ c = a +:+ (b +:+ c).
Proof.
  induction a as [|x a' IH]; [reflexivity|].
  change (String x ((a' +:+ b) +:+ c) = String x (a' +:+ (b +:+ c))).
  now rewrite IH.
Qed.

Lemma includes_trans (a b c : string) :
  includes a b = true -> includes b c = true -> includes a c = true.
Proof.
  rewrite !includes_spec. intros (p1 & q1 & ->) (p2 & q2 & ->).
  exists (p1 +:+ p2), (q2 +:+ q1).
  rewrite (append_assoc p1 p2). f_equal.
  rewrite (append_assoc p2 (c +:+ q2) q1). f_equal. apply append_assoc.
Qed.

End Includes.

Section ProxyFacts.
Import JS Proxy.

Lemma metrics_url_is_api url :
  existsb (fun m => includes url m) OFFLINE_METRICS_URLS = true ->
  includes url "/api/" = true.
Proof.
  intros H. apply existsb_exists in H as (m & Hm & Hi).
  apply (includes_trans url m); [exact Hi|].
  unfold OFFLINE_METRICS_URLS in Hm. simpl in Hm.
  repeat (destruct Hm as [<-|Hm]; [reflexivity|]). contradiction.
Qed.

Lemma cache_lookup_store url resp c :
  cache_lookup url (cache_store url resp c) = Some resp.
Proof.
  induction c as [|[u old] rest IH]; simpl.
  - now rewrite String.eqb_refl.
  - destruct (String.eqb u url) eqn:E; simpl; rewrite E; [reflexivity|exact IH].
Qed.

Lemma cache_lookup_store_other url url' resp c :
  url' <> url ->
  cache_lookup url' (cache_store url resp c) = cache_lookup url' c.
Proof.
  intros NE. induction c as [|[u old] rest IH]; simpl.
  - destruct (String.eqb_spec url url'); [congruence|reflexivity].
  - destruct (String.eqb_spec u url) as [->|N]; simpl.
    + destruct (String.eqb_spec url url'); [congruence|reflexivity].
    + destruct (String.eqb u url'); [reflexivity|exact IH].
Qed.

Lemma only_in_open name url cs :
  only_in name url cs -> only_in name url (caches_open name cs).
Proof.
  intros H. unfold caches_open. destruct (has_cache name cs); [exact H|].
  intros n c Hin NE. apply in_app_or in Hin as [Hin|[[= <- <-]|[]]];
    [now apply (H n c)|reflexivity].
Qed.

Lemma has_cache_open name cs : has_cache name (caches_open name cs) = true.
Proof.
  unfold caches_open. destruct (has_cache name cs) eqn:E; [exact E|].
  unfold has_cache. rewrite existsb_app. simpl.
  now rewrite String.eqb_refl, orb_true_r.
Qed.

Lemma caches_match_after_put name request resp cs :
  is_get request = true ->
  has_cache name cs = true ->
  only_in name (h_url request) cs ->
  caches_match request
    (in_cache name (cache_store (h_url request) resp) cs) = Some resp.
Proof.
  intros G. induction cs as [|[n c] rest IH]; intros Hh Ho; [discriminate|].
  simpl in Hh. simpl. destruct (String.eqb_spec n name) as [->|NE]; simpl.
  - unfold cache_match. rewrite G. now rewrite cache_lookup_store.
  - unfold cache_match at 1. rewrite G.
    rewrite (Ho n c (or_introl eq_refl) NE).
    apply IH; [exact Hh|].
    intros n' c' Hin. apply (Ho n' c'). now right.
Qed.

Lemma caches_match_after_put_and_activate name request resp cs :
  current name = true ->
  is_get request = true ->
  has_cache name cs = true ->
  only_in name (h_url request) cs ->
  caches_match request
    (on_activate (in_cache name (cache_store (h_url request) resp) cs)) =
  Some resp.
Proof.
  intros Hc G. unfold on_activate.
  induction cs as [|[n c] rest IH]; intros Hh Ho; [discriminate|].
  simpl in Hh. simpl. destruct (String.eqb_spec n name) as [->|NE].
  - cbn [List.filter fst]. rewrite Hc. simpl. unfold cache_match. rewrite G.
    now rewrite cache_lookup_store.
  - simpl in Hh. cbn [List.filter fst].
    assert (Hrest : caches_match request
              (List.filter (fun entry => current (fst entry))
                 (in_cache name (cache_store (h_url request) resp) rest)) =
              Some resp).
    { apply IH; [exact Hh|]. intros n' c' Hin. apply (Ho n' c'). now right. }
    destruct (current n); [|exact Hrest].
    simpl. unfold cache_match at 1. rewrite G.
    now rewrite (Ho n c (or_introl eq_refl) NE).
Qed.

Lemma caches_match_open probe name cs :
  caches_match probe (caches_open name cs) = caches_match probe cs.
Proof.
  unfold caches_open. destruct (has_cache name cs); [reflexivity|].
  induction cs as [|[n c] rest IH]; simpl.
  - unfold cache_match. now destruct (is_get probe).
  - destruct (cache_match probe c); [reflexivity|exact IH].
Qed.

Lemma addAll_success network origin urls c :
  (forall u, In u urls ->
     exists r, network (asset origin u) = Some r /\ ok r = true /\
               r_status r <> 206) ->
  exists c',
    addAll network origin urls c = Some c' /\
    forall u, In u urls ->
      cache_lookup (origin +:+ u) c' = network (asset origin u).
Proof.
  induction urls as [|url rest IH]; intros H.
  - exists c. split; [reflexivity|]. intros u [].
  - destruct (H url (or_introl eq_refl)) as (r & Hr & Hok & H206).
    destruct IH as (c'' & Hc & Hl).
    { intros u Hu. apply H. now right. }
    exists (cache_store (origin +:+ url) r c''). split.
    + cbn [addAll]. rewrite Hr, Hok, Hc. unfold storable, is_get. cbn.
      destruct (Z.eqb_spec (r_status r) 206); [contradiction|reflexivity].
    + intros u [<-|Hu].
      * now rewrite cache_lookup_store.
      * destruct (String.eqb_spec (origin +:+ u) (origin +:+ url)) as [E|NE].
        -- rewrite E, cache_lookup_store. unfold asset. now rewrite E.
        -- rewrite cache_lookup_store_other by exact NE. now apply Hl.
Qed.

Lemma addAll_failure network origin urls c url :
  In url urls ->
  (network (asset origin url) = None \/
   exists r, network (asset origin url) = Some r /\ ok r = false) ->
  addAll network origin urls c = None.
Proof.
  induction urls as [|u rest IH]; intros Hin Hbad; [contradiction|].
  cbn [addAll]. destruct Hin as [->|Hin].
  - destruct Hbad as [->|(r & -> & Hok)]; [reflexivity|]. now rewrite Hok.
  - destruct (network (asset origin u)) as [r|]; [|reflexivity].
    destruct (ok r && storable (asset origin u) r); [|reflexivity].
    now rewrite IH.
Qed.

Lemma in_cache_append name f cs c :
  has_cache name cs = false ->
  in_cache name f (cs ++ [(name, c)]) = cs ++ [(name, f c)].
Proof.
  induction cs as [|[n c0] rest IH]; simpl; intros H.
  - now rewrite String.eqb_refl.
  - apply orb_false_iff in H as [Hn Hr]. rewrite Hn. now rewrite IH.
Qed.

Lemma open_and_addAll_fresh network origin name urls cs :
  has_cache name cs = false ->
  open_and_addAll network origin name urls cs =
  cs ++ [(name, match addAll network origin urls [] with
                | Some c' => c'
                | None => []
                end)].
Proof.
  intros H. unfold open_and_addAll, caches_open. rewrite H.
  now apply in_cache_append.
Qed.

Lemma on_install_fresh network origin :
  on_install network origin [] =
  [(CACHE_NAME, match addAll network origin urlsToCache [] with
                | Some c' => c'
                | None => []
                end);
   (FONT_CACHE_NAME, match addAll network origin fontFilesToCache [] with
                     | Some c' => c'
                     | None => []
                     end)].
Proof.
  unfold on_install.
  rewrite (open_and_addAll_fresh network origin CACHE_NAME urlsToCache [])
    by reflexivity.
  rewrite open_and_addAll_fresh by reflexivity. reflexivity.
Qed.

End ProxyFacts.

Section ProxyExtras.
Import JS Proxy Scenes.

(** X23: the [fetch] listener keeps the last good answer of a metrics
    endpoint.  A [GET] for a url that names one of the
    [OFFLINE_METRICS_URLS], answered [ok] (and not with status 206), is
    passed on and stored; when the same request later meets a network
    that is unreachable or answers with an error status, the listener
    answers with the stored response, also after [activate] has run,
    and leaves the caches alone. *)
Theorem metrics_answer_survives_an_outage :
  forall (network network' : Network) (request : HttpRequest)
         (resp : HttpResponse) (cs : CacheStorage),
    is_get request = true ->
    existsb (fun url => includes (h_url request) url) OFFLINE_METRICS_URLS = true ->
    network request = Some resp -> ok resp = true -> r_status resp <> 206 ->
    only_in API_CACHE_NAME (h_url request) cs ->
    (network' request = None \/
     exists bad, network' request = Some bad /\ ok bad = false) ->
    let first := on_fetch network request cs in
    response first = resp /\
    response (on_fetch network' request (caches first)) = resp /\
    caches (on_fetch network' request (caches first)) = caches first /\
    response (on_fetch network' request (on_activate (caches first))) = resp.
Proof.
  intros network network' request resp cs G M Hn Hok H206 Only Hbad first.
  pose proof (metrics_url_is_api _ M) as Api.
  assert (Hfirst : first = {| response := resp;
                              caches := open_and_put API_CACHE_NAME request resp cs;
                              fetched := [request] |}).
  { unfold first, on_fetch. now rewrite Api, M, Hn, Hok. }
  assert (Hput : open_and_put API_CACHE_NAME request resp cs =
                 in_cache API_CACHE_NAME (cache_store (h_url request) resp)
                   (caches_open API_CACHE_NAME cs)).
  { unfold open_and_put, storable. rewrite G.
    destruct (Z.eqb_spec (r_status resp) 206); [contradiction|reflexivity]. }
  assert (Hm : caches_match request (caches first) = Some resp).
  { rewrite Hfirst. cbn [caches]. rewrite Hput.
    apply caches_match_after_put;
      [exact G|apply has_cache_open|now apply only_in_open]. }
  assert (Hma : caches_match request (on_activate (caches first)) = Some resp).
  { rewrite Hfirst. cbn [caches]. rewrite Hput.
    apply caches_match_after_put_and_activate;
      [reflexivity|exact G|apply has_cache_open|now apply only_in_open]. }
  split; [now rewrite Hfirst|].
  unfold on_fetch. rewrite Api, M. cbn [orb].
  destruct Hbad as [->|(bad & -> & Hb)]; [|rewrite Hb];
    cbn [response caches]; now rewrite Hm, Hma.
Qed.

Lemma metrics_answer_survives_an_outage_witness :
  is_get listing_request = true /\
  only_in API_CACHE_NAME (h_url listing_request) [] /\
  response (on_fetch unreachable listing_request
              (caches (on_fetch up listing_request []))) = listing_answer /\
  response (on_fetch unreachable listing_request []) =
    unavailable "No cached data available offline".
Proof.
  assert (Only : only_in API_CACHE_NAME (h_url listing_request) []).
  { intros n c []. }
  split; [reflexivity|]. split; [exact Only|].
  destruct (metrics_answer_survives_an_outage up unreachable listing_request
              listing_answer [] eq_refl eq_refl eq_refl eq_refl) as (_ & H & _).
  - discriminate.
  - exact Only.
  - now left.
  - split; [exact H|reflexivity].
Defined.

(** X24: the [fetch] listener calls the network at most once per
    request, and changes the caches in one case only: a metrics url
    answered [ok], whose response it passes on and stores in the API
    cache. *)
Theorem fetch_listener_stores_only_good_metrics_answers :
  forall (network : Network) (request : HttpRequest) (cs : CacheStorage),
    let answer := on_fetch network request cs in
    (length (fetched answer) <= 1)%nat /\
    (caches answer = cs \/
     existsb (fun url => includes (h_url request) url) OFFLINE_METRICS_URLS = true /\
     exists resp,
       network request = Some resp /\ ok resp = true /\
       response answer = resp /\
       caches answer = open_and_put API_CACHE_NAME request resp cs).
Proof.
  intros network request cs answer. unfold answer, on_fetch.
  destruct (includes (h_url request) "/api/" ||
            includes (h_url request) "script.google.com").
  - destruct (existsb _ OFFLINE_METRICS_URLS) eqn:M.
    + destruct (network request) as [resp|] eqn:N.
      * destruct (ok resp) eqn:O; cbn; [|split; [lia|now left]].
        split; [lia|]. right. split; [reflexivity|]. now exists resp.
      * cbn. split; [lia|now left].
    + destruct (network request); cbn; (split; [lia|now left]).
  - destruct (caches_match request cs); [cbn; split; [lia|now left]|].
    destruct (network request); cbn; (split; [lia|now left]).
Qed.

(** X26: a request that is not a [GET] never reaches the caches: after
    the listener answered it every [caches.match] gives what it gave
    before, the network was called once, and the answer is the
    network's, or a 503 the listener made up, never a cached one. *)
Theorem non_get_requests_bypass_the_caches :
  forall (network : Network) (request probe : HttpRequest) (cs : CacheStorage),
    is_get request = false ->
    let answer := on_fetch network request cs in
    caches_match probe (caches answer) = caches_match probe cs /\
    fetched answer = [request] /\
    match network request with
    | Some resp =>
        response answer = resp \/
        (ok resp = false /\
         response answer = unavailable "No cached data available offline")
    | None => r_status (response answer) = 503
    end.
Proof.
  intros network request probe cs G answer.
  assert (Miss : caches_match request cs = None).
  { clear -G. induction cs as [|[n c] rest IH]; simpl; [reflexivity|].
    unfold cache_match. now rewrite G. }
  unfold answer, on_fetch. rewrite Miss.
  destruct (includes (h_url request) "/api/" ||
            includes (h_url request) "script.google.com").
  - destruct (existsb _ OFFLINE_METRICS_URLS).
    + destruct (network request) as [resp|]; [|now cbn].
      destruct (ok resp) eqn:O; cbn.
      * unfold open_and_put, storable. rewrite G. cbn.
        split; [apply caches_match_open|]. split; [reflexivity|now left].
      * split; [reflexivity|]. split; [reflexivity|]. right. now split.
    + destruct (network request) as [resp|]; cbn;
        (split; [reflexivity|]); (split; [reflexivity|]); [now left|reflexivity].
  - destruct (network request) as [resp|]; cbn;
      (split; [reflexivity|]); (split; [reflexivity|]); [now left|reflexivity].
Qed.

Lemma non_get_requests_bypass_the_caches_witness :
  is_get listing_post = false /\
  caches_match listing_request
    (caches (on_fetch up listing_post [])) = None /\
  caches_match listing_request
    (caches (on_fetch up listing_request [])) = Some listing_answer.
Proof.
  split; [reflexivity|].
  destruct (non_get_requests_bypass_the_caches up listing_post
              listing_request [] eq_refl) as (H & _).
  split; [exact H|reflexivity].
Defined.

(** X27: after an [install] on empty cache storage during which every
    url of [urlsToCache] was answered [ok] (and not with status 206), the
    [fetch] listener serves
    each of those assets from the static cache, with the response
    fetched at install time and without calling the network, provided
    the asset's absolute url does not read as an API url. *)
Theorem precached_assets_are_served_without_network :
  forall (network network' : Network) (origin url : string)
         (resp : HttpResponse),
    (forall u, In u urlsToCache ->
       exists r, network (asset origin u) = Some r /\ ok r = true /\
                 r_status r <> 206) ->
    In url urlsToCache ->
    includes (origin +:+ url) "/api/" = false ->
    includes (origin +:+ url) "script.google.com" = false ->
    network (asset origin url) = Some resp ->
    let answer :=
      on_fetch network' (asset origin url) (on_install network origin []) in
    response answer = resp /\ fetched answer = [].
Proof.
  intros network network' origin url resp Hall Hin A1 A2 Hn answer.
  destruct (addAll_success network origin urlsToCache [] Hall)
    as (c' & Hc & Hl).
  assert (Hi : exists fonts,
            on_install network origin [] =
            [(CACHE_NAME, c'); (FONT_CACHE_NAME, fonts)]).
  { rewrite on_install_fresh, Hc. eexists. reflexivity. }
  destruct Hi as (fonts & Hi).
  unfold answer, on_fetch. rewrite Hi. cbn [h_url asset].
  rewrite A1, A2. cbn [orb caches_match].
  unfold cache_match.
  change (is_get (asset origin url)) with true. cbn iota.
  change (h_url (asset origin url)) with (origin +:+ url).
  rewrite (Hl url Hin), Hn. now cbn.
Qed.

(** X28: the static cache is filled all at once or not at all: if a
    single url of [urlsToCache] cannot be fetched or is answered with an
    error status during [install], the static cache is created but
    stays empty, and the fonts are still tried. *)
Theorem one_missing_asset_leaves_the_static_cache_empty :
  forall (network : Network) (origin url : string),
    In url urlsToCache ->
    (network (asset origin url) = None \/
     exists r, network (asset origin url) = Some r /\ ok r = false) ->
    exists fonts,
      on_install network origin [] =
      [(CACHE_NAME, []); (FONT_CACHE_NAME, fonts)].
Proof.
  intros network origin url Hin Hbad.
  rewrite on_install_fresh.
  rewrite (addAll_failure network origin urlsToCache [] url Hin Hbad).
  eexists. reflexivity.
Qed.

End ProxyExtras.

Section Witnesses.
Import JS Wire Page Vocabulary Proxy Scenes Examples.

Lemma cached_answer_is_served_offline_witness :
  offline online_page_with_sale = false /\
  List.filter (fun e => includes listing_url (fst e)) cache_table =
    [("/api/getSalesRecords", "sales")] /\
  snd (fetchData down 0
         (setOfflineStatus true
            (fst (fst (fetchData serving 0 online_page_with_sale listing_url
                         no_options))))
         listing_url no_options) =
    Returned (offline_hit (VArr [VObj [("id", VNum 1); ("amount", VNum 5)]])).
Proof.
  split; [reflexivity|]. split; [reflexivity|].
  destruct (cached_answer_is_served_offline serving down 0 0
              online_page_with_sale listing_url no_options no_options
              "/api/getSalesRecords" "sales" listing (VBool true)
              (VArr [VObj [("id", VNum 1); ("amount", VNum 5)]])
              eq_refl eq_refl eq_refl eq_refl eq_refl eq_refl eq_refl)
    as [_ H].
  now rewrite H.
Defined.

Lemma precached_assets_are_served_without_network_witness :
  In "/index.html" urlsToCache /\
  includes ("https://shop.example" +:+ "/index.html") "/api/" = false /\
  includes ("https://shop.example" +:+ "/index.html") "script.google.com" = false /\
  up (asset "https://shop.example" "/index.html") = Some listing_answer /\
  response (on_fetch unreachable (asset "https://shop.example" "/index.html")
              (on_install up "https://shop.example" [])) = listing_answer /\
  fetched (on_fetch unreachable (asset "https://shop.example" "/index.html")
             (on_install up "https://shop.example" [])) = [].
Proof.
  assert (Hin : In "/index.html" urlsToCache) by (right; now left).
  split; [exact Hin|]. split; [reflexivity|]. split; [reflexivity|].
  split; [reflexivity|].
  apply (precached_assets_are_served_without_network up unreachable
           "https://shop.example" "/index.html" listing_answer).
  - intros u _. exists listing_answer. split; [reflexivity|].
    split; [reflexivity|discriminate].
  - exact Hin.
  - reflexivity.
  - reflexivity.
  - reflexivity.
Defined.

Lemma one_missing_asset_leaves_the_static_cache_empty_witness :
  In "/styles/main.css" urlsToCache /\
  ok page_not_found = false /\
  exists fonts,
    on_install stylesheet_missing "https://shop.example" [] =
    [(CACHE_NAME, []); (FONT_CACHE_NAME, fonts)].
Proof.
  assert (Hin : In "/styles/main.css" urlsToCache) by (right; right; now left).
  split; [exact Hin|]. split; [reflexivity|].
  apply (one_missing_asset_leaves_the_static_cache_empty stylesheet_missing
           "https://shop.example" "/styles/main.css" Hin).
  right. exists page_not_found. split; reflexivity.
Defined.

End Witnesses.
